(** * PaaschenCurveGen: peak extraction, slope estimation and pressure alignment

    A shallow embedding of [PaaschenCurveGen.py].

    Modelling conventions.
    - A finite float64 (a sample, a peak, a time, a multiplier) is an exact
      rational [Q]; rounding and overflow are not modelled.  Samples are
      assumed to be finite numbers.
    - What numpy returns where exact arithmetic has no value is kept
      explicit: [NaN] and the two infinities wrap the exact carrier
      ([ieee]).
    - [np.std] takes a square root; its value and the two trim bounds that
      are built from it live in [Q] extended by one square root ([surd]),
      where the order is still decidable.
    - Exceptions are values of the error monad [exc]. *)

From Stdlib Require Import String Ascii.
From Stdlib Require Import Reals Qreals.
From Stdlib Require Import QArith Qabs Qminmax Lia List Bool ZArith.
From Stdlib Require Import Psatz.
From Stdlib Require Import Permutation Sorted.
Import ListNotations.

Local Open Scope Q_scope.

(* ===================================================================== *)
(** ** Numbers *)
(* ===================================================================== *)

Module Num.

(** A float64 whose finite values are taken from the exact carrier [A]. *)
Inductive ieee (A : Type) : Type :=
| NaN : ieee A
| NInf : ieee A
| Fin (x : A) : ieee A
| PInf : ieee A.

Arguments NaN {A}.
Arguments NInf {A}.
Arguments Fin {A} x.
Arguments PInf {A}.

(** Results of numpy arithmetic that takes no square root. *)
Definition num : Type := ieee Q.

(** The real number [rat + coef * sqrt rad], with [0 <= rad]. *)
Record surd : Type := Surd { rat : Q; coef : Q; rad : Q }.

(** Results of numpy arithmetic below one [np.sqrt]. *)
Definition snum : Type := ieee surd.

Definition Qltb (x y : Q) : bool := negb (Qle_bool y x).
Definition Qsign (x : Q) : comparison := 0 ?= x.

Definition surd_of_Q (q : Q) : surd := Surd q 0 0.
Definition of_Q (q : Q) : snum := Fin (surd_of_Q q).

(** Sum of a sequence ([np.add.reduce]). *)
Fixpoint Qsum (xs : list Q) : Q :=
  match xs with
  | [] => 0
  | x :: r => x + Qsum r
  end.

Definition Qlen (xs : list Q) : Q := inject_Z (Z.of_nat (length xs)).

(** [x / y] on float64: a zero divisor gives an infinity of the sign of
    [x], and [0 / 0] gives NaN. *)
Definition fdiv (x y : Q) : num :=
  if Qeq_bool y 0 then
    match Qsign x with
    | Eq => NaN
    | Lt => PInf
    | Gt => NInf
    end
  else Fin (x / y).

(** [np.mean]: the sum over the count; NaN for an empty sequence. *)
Definition np_mean (xs : list Q) : num := fdiv (Qsum xs) (Qlen xs).

(** Sum of the squared deviations from [m]. *)
Definition sqdev (m : Q) (xs : list Q) : Q :=
  Qsum (map (fun x => (x - m) * (x - m)) xs).

(** [np.std(xs, ddof=ddof)]: the square root of the sum of squared
    deviations from the mean over [max(N - ddof, 0)]. *)
Definition np_std (xs : list Q) (ddof : nat) : snum :=
  match np_mean xs with
  | Fin m =>
      match fdiv (sqdev m xs) (inject_Z (Z.of_nat (length xs - ddof))) with
      | Fin v => Fin (Surd 0 1 v)
      | NaN => NaN
      | NInf => NaN
      | PInf => PInf
      end
  | _ => NaN
  end.

(** [k * s] for a rational [k]. *)
Definition smul (k : Q) (s : snum) : snum :=
  match s with
  | NaN => NaN
  | Fin x => Fin (Surd (k * rat x) (k * coef x) (rad x))
  | PInf => match Qsign k with Eq => NaN | Lt => PInf | Gt => NInf end
  | NInf => match Qsign k with Eq => NaN | Lt => NInf | Gt => PInf end
  end.

Definition sneg (s : snum) : snum := smul (-1) s.

(** [x + s] where [x] has no square root. *)
Definition sadd (x : num) (s : snum) : snum :=
  match x, s with
  | NaN, _ | _, NaN => NaN
  | PInf, NInf | NInf, PInf => NaN
  | PInf, _ | _, PInf => PInf
  | NInf, _ | _, NInf => NInf
  | Fin m, Fin y => Fin (Surd (m + rat y) (coef y) (rad y))
  end.

Definition ssub (x : num) (s : snum) : snum := sadd x (sneg s).

(** [b * sqrt r <= d], decided without the root: for [0 <= b] both sides
    are compared through their squares once [d] is known nonnegative, for
    [b < 0] the left side is nonpositive. *)
Definition root_le (b r d : Q) : bool :=
  if Qle_bool 0 b
  then Qle_bool 0 d && Qle_bool (b * b * r) (d * d)
  else Qle_bool 0 d || Qle_bool (d * d) (b * b * r).

(** [s <= m] and [m <= s] for an exact [m]; false when [s] is NaN. *)
Definition surd_le_Q (s : surd) (m : Q) : bool :=
  root_le (coef s) (rad s) (m - rat s).

Definition Q_le_surd (m : Q) (s : surd) : bool :=
  root_le (- coef s) (rad s) (rat s - m).

Definition Q_ge (m : Q) (s : snum) : bool :=
  match s with
  | NaN => false
  | NInf => true
  | Fin x => surd_le_Q x m
  | PInf => false
  end.

Definition Q_le (m : Q) (s : snum) : bool :=
  match s with
  | NaN => false
  | NInf => false
  | Fin x => Q_le_surd m x
  | PInf => true
  end.

(** [x > y] on [num]; every comparison with NaN is false. *)
Definition num_gtb (x y : num) : bool :=
  match x, y with
  | NaN, _ | _, NaN => false
  | NInf, _ => false
  | _, PInf => false
  | Fin a, Fin b => Qltb b a
  | Fin _, NInf => true
  | PInf, _ => true
  end.

Definition num_leb (x y : num) : bool :=
  match x, y with
  | NaN, _ | _, NaN => false
  | NInf, _ => true
  | _, PInf => true
  | Fin a, Fin b => Qle_bool a b
  | Fin _, NInf => false
  | PInf, _ => false
  end.

(** Python's builtin [max(a, b)]: [b] replaces [a] only when [b > a]. *)
Definition py_max (a b : num) : num := if num_gtb b a then b else a.

(** Equality of float64 results up to the representation of the rational. *)
Definition num_eq (x y : num) : Prop :=
  match x, y with
  | NaN, NaN => True
  | NInf, NInf => True
  | PInf, PInf => True
  | Fin a, Fin b => a == b
  | _, _ => False
  end.

End Num.
Import Num.

Declare Scope num_scope.
Delimit Scope num_scope with num.
Infix "*'" := smul (at level 40, left associativity) : num_scope.
Infix "+'" := sadd (at level 50, left associativity) : num_scope.
Infix "-'" := ssub (at level 50, left associativity) : num_scope.
Infix ">=?" := Q_ge (at level 70) : num_scope.
Infix "<=?" := Q_le (at level 70) : num_scope.
Infix ">?" := num_gtb (at level 70) : num_scope.
Infix "<?" := Qltb (at level 70) : num_scope.

(* ===================================================================== *)
(** ** The capture table *)
(* ===================================================================== *)

(** The table [read_dso_csv] returns: its columns in file order, each a
    name and the numeric values of its rows.  Column names are distinct
    and every column has one value per row. *)
Definition DataFrame : Type := list (string * list Q).

Definition columns (df : DataFrame) : list string := map fst df.

(** [df[name]]; the program only indexes with names of [df.columns] and
    with the time column, which [read_dso_csv] has converted. *)
Fixpoint getcol (df : DataFrame) (name : string) : list Q :=
  match df with
  | [] => []
  | (c, vs) :: r => if String.eqb c name then vs else getcol r name
  end.

(* ===================================================================== *)
(** ** Peak extractor: [find_maxes] *)
(* ===================================================================== *)

Local Open Scope num_scope.

(** One iteration of the loop over [df[channel]], on the pair
    [(prev, maxes)]. *)
Definition scan_step (av : num) (st : Q * list Q) (k : Q) : Q * list Q :=
  let '(prev, maxes) := st in
  let i := Qabs k in
  if Fin prev >? py_max (Fin (4 * i)) av then (i, maxes ++ [prev])
  else if prev <? i then (i, maxes)
  else (prev, maxes).

(** The loop, from [prev = 0] and [maxes = []]. *)
Definition scan (av : num) (series : list Q) : Q * list Q :=
  fold_left (scan_step av) series (0, []).

(** [if maxes: maxes.pop(0)]. *)
Definition pop0 (maxes : list Q) : list Q :=
  match maxes with
  | [] => []
  | _ :: r => r
  end.

Definition find_maxes (df : DataFrame) (channel : string) : list Q :=
  let av := np_mean (getcol df channel) in
  let maxes := snd (scan av (getcol df channel)) in
  let maxes := pop0 maxes in
  let std := if (1 <? length maxes)%nat then np_std maxes 1 else of_Q 10 in
  let Lbound := np_mean maxes -' 2 *' std in
  let Ubound := np_mean maxes +' 2 *' std in
  let maxes := filter (fun m => m >=? Lbound) maxes in
  let maxes := filter (fun m => m <=? Ubound) maxes in
  maxes.

(* ===================================================================== *)
(** ** Slope estimator: [calculate_median_slope] *)
(* ===================================================================== *)

(** [np.diff]: [a[i+1] - a[i]]. *)
Fixpoint np_diff (xs : list Q) : list Q :=
  match xs with
  | [] => []
  | x :: r =>
      match r with
      | [] => []
      | y :: _ => (y - x) :: np_diff r
      end
  end.

(** Element-wise [/] of two arrays of one length. *)
Fixpoint np_divide (xs ys : list Q) : list num :=
  match xs, ys with
  | x :: xr, y :: yr => fdiv x y :: np_divide xr yr
  | _, _ => []
  end.

Definition is_nan (x : num) : bool :=
  match x with
  | NaN => true
  | _ => false
  end.

Definition num_add (x y : num) : num :=
  match x, y with
  | NaN, _ | _, NaN => NaN
  | PInf, NInf | NInf, PInf => NaN
  | PInf, _ | _, PInf => PInf
  | NInf, _ | _, NInf => NInf
  | Fin a, Fin b => Fin (a + b)
  end.

Definition num_half (x : num) : num :=
  match x with
  | Fin a => Fin (a / 2)
  | other => other
  end.

Fixpoint insert (x : num) (l : list num) : list num :=
  match l with
  | [] => [x]
  | y :: r => if num_leb x y then x :: l else y :: insert x r
  end.

(** A sorted copy ([np.sort]). *)
Fixpoint sort (l : list num) : list num :=
  match l with
  | [] => []
  | x :: r => insert x (sort r)
  end.

(** The middle of a sorted copy: the middle value for an odd count, the
    mean of the two middle values for an even one. *)
Definition middle (s : list num) : num :=
  let n := length s in
  if Nat.even n
  then num_half (num_add (nth (n / 2 - 1) s NaN) (nth (n / 2) s NaN))
  else nth (n / 2) s NaN.

(** [np.median]: NaN if the data is empty or holds a NaN. *)
Definition np_median (xs : list num) : num :=
  if existsb is_nan xs then NaN
  else match xs with
       | [] => NaN
       | _ => middle (sort xs)
       end.

Definition calculate_median_slope (df : DataFrame) (channel : string) : num :=
  let slopes := np_divide (np_diff (getcol df channel))
                          (np_diff (getcol df "Time (ms)")) in
  let median_slope := np_median slopes in
  median_slope.

(* ===================================================================== *)
(** ** Exceptions *)
(* ===================================================================== *)

Inductive exn : Type :=
| ValueError (msg : string)
| IndexError
| FileNotFoundError (path : string).

(** A computation that returns or raises. *)
Inductive exc (A : Type) : Type :=
| Ok (a : A)
| Raise (e : exn).

Arguments Ok {A} a.
Arguments Raise {A} e.

Definition bind {A B : Type} (c : exc A) (k : A -> exc B) : exc B :=
  match c with
  | Ok a => k a
  | Raise e => Raise e
  end.

Declare Scope exc_scope.
Delimit Scope exc_scope with exc.
Notation "x <- c ;; k" := (bind c (fun x => k))
  (at level 61, c at next level, right associativity) : exc_scope.

(** A [for] loop whose body updates [s] and may raise: the first exception
    leaves the loop. *)
Fixpoint for_each {A S : Type} (xs : list A) (body : S -> A -> exc S) (s : S)
  : exc S :=
  match xs with
  | [] => Ok s
  | x :: r => bind (body s x) (for_each r body)
  end.

(* ===================================================================== *)
(** ** Strings *)
(* ===================================================================== *)

Definition startswith (s p : string) : bool := String.prefix p s.

Definition endswith (s p : string) : bool :=
  (String.length p <=? String.length s)%nat
  && String.eqb (substring (String.length s - String.length p)
                           (String.length p) s) p.

(** [p in s]. *)
Fixpoint contains (p s : string) : bool :=
  String.prefix p s
  || match s with
     | EmptyString => false
     | String _ r => contains p r
     end.

(** [s.replace(old, new)] for a non-empty [old]: occurrences are taken
    left to right and do not overlap; [skip] counts the characters of the
    occurrence just replaced that are still to be dropped. *)
Fixpoint replace_from (old new s : string) (skip : nat) : string :=
  match s with
  | EmptyString => EmptyString
  | String c r =>
      match skip with
      | S k => replace_from old new r k
      | O =>
          if String.prefix old s
          then new ++ replace_from old new r (String.length old - 1)
          else String c (replace_from old new r 0)
      end
  end.

Definition replace (s old new : string) : string := replace_from old new s 0.

(* ===================================================================== *)
(** ** What the program reads from outside *)
(* ===================================================================== *)

(** The pressure log after [read_pressure_csv]: the [Date/Time] column in
    seconds and the [Pressure (micron)] column, row by row. *)
Definition PressureData : Type := list (Z * Q).

(** The file system and the library calls whose code is not part of the
    program.
    - [listdir]: [os.listdir], which raises for a missing folder.
    - [read_dso_csv], [read_pressure_csv]: the table a path is parsed to;
      [None] for whatever these two readers catch and report.
    - [strptime]: [datetime.strptime(_, '%Y %m %d %H %M %S')] as seconds,
      [None] where it raises [ValueError].
    - [argsort]: the positions of the keys in sorted order. *)
Class Env : Type := {
  listdir : string -> exc (list string);
  read_dso_csv : string -> option DataFrame;
  read_pressure_csv : string -> option PressureData;
  strptime : string -> option Z;
  argsort : list Z -> list nat
}.

(** What [argsort] promises: a permutation of the positions that puts the
    keys in non-decreasing order.  The order among equal keys is left
    open. *)
Class ArgsortSpec (E : Env) : Prop := {
  argsort_perm : forall ks, Permutation (argsort ks) (seq 0 (length ks));
  argsort_sorted : forall ks,
    StronglySorted (fun i j => (nth i ks 0 <= nth j ks 0)%Z) (argsort ks)
}.

Definition path_join (folder file : string) : string :=
  (folder ++ "/" ++ file)%string.

(* ===================================================================== *)
(** ** Timestamp aligner: [map_pressure_to_file] *)
(* ===================================================================== *)

Local Open Scope exc_scope.

Section Aligner.
Context {E : Env}.

(** [frame.iloc[positions]]: the rows at these positions, in this order;
    a position outside the frame raises. *)
Fixpoint iloc (pressure_data : PressureData) (positions : list nat)
  : exc PressureData :=
  match positions with
  | [] => Ok []
  | p :: r =>
      match nth_error pressure_data p with
      | None => Raise IndexError
      | Some row => rows <- iloc pressure_data r ;; Ok (row :: rows)
      end
  end.

(** [(pressure_data['Date/Time'] - file_time).abs()]. *)
Definition abs_diff (pressure_data : PressureData) (file_time : Z) : list Z :=
  map (fun row => Z.abs (fst row - file_time)) pressure_data.

Definition map_pressure_to_file (pressure_data : PressureData)
  (file_name : string) : exc (option Q) :=
  let file_time_str :=
    replace (replace (replace file_name "Pokit DSO Export " "") ".csv" "")
            "-" " " in
  file_time <- match strptime file_time_str with
               | Some t => Ok t
               | None => Raise (ValueError file_time_str)
               end ;;
  closest_time <-
    iloc pressure_data (firstn 1 (argsort (abs_diff pressure_data file_time))) ;;
  match closest_time with
  | row :: _ => Ok (Some (snd row))
  | [] => Ok None
  end.

End Aligner.

(* ===================================================================== *)
(** ** Folder aggregator: [process_folder] *)
(* ===================================================================== *)

(** One entry of [results]. *)
Record Row : Type := {
  File_Name : string;
  Channel : string;
  Mean_of_Maxes : num;
  Standard_Deviation_of_Maxes : snum;
  Median_Slope : num;
  Pressure : option Q
}.

Section Aggregator.
Context {E : Env}.

(** The body of [for col in df.columns].  [plot_ch_vs_time] only writes a
    picture and is left out. *)
Definition process_column (pressure_data : PressureData)
  (max_multiplier pressure_multiplier : Q) (file_name : string)
  (df : DataFrame) (results : list Row) (col : string) : exc (list Row) :=
  if startswith col "CH" then
    let maxes := find_maxes df col in
    let maxes := map (fun m => m * max_multiplier) maxes in
    match maxes with
    | _ :: _ =>
        let mean_max := np_mean maxes in
        let std_max := np_std maxes 1 in
        let median_slope := calculate_median_slope df col in
        pressure <- map_pressure_to_file pressure_data file_name ;;
        let pressure :=
          match pressure with
          | Some p => Some (p * pressure_multiplier)
          | None => None
          end in
        Ok (results ++ [ {| File_Name := file_name;
                            Channel := col;
                            Mean_of_Maxes := mean_max;
                            Standard_Deviation_of_Maxes := std_max;
                            Median_Slope := median_slope;
                            Pressure := pressure |} ])
    | [] => Ok results
    end
  else Ok results.

(** The body of [for file_name in os.listdir(folder_path)]. *)
Definition process_file (folder_path : string) (pressure_data : PressureData)
  (max_multiplier pressure_multiplier : Q)
  (results : list Row) (file_name : string) : exc (list Row) :=
  if endswith file_name ".csv" && contains "Pokit DSO Export" file_name then
    let file_path := path_join folder_path file_name in
    match read_dso_csv file_path with
    | Some df =>
        for_each (columns df)
          (process_column pressure_data max_multiplier pressure_multiplier
                          file_name df)
          results
    | None => Ok results
    end
  else Ok results.

Definition process_folder (folder_path : string) (pressure_data : PressureData)
  (max_multiplier pressure_multiplier : Q) : exc (list Row) :=
  file_names <- listdir folder_path ;;
  for_each file_names
    (process_file folder_path pressure_data max_multiplier pressure_multiplier)
    [].

(* --------------------------------------------------------------------- *)
(** ** Cross-folder combiner: [process_multiple_folders] *)

Record Multiplier : Type := {
  max_multiplier : Q;
  pressure_multiplier : Q
}.

(** [all_results[folder_path] = results_df] on an insertion-ordered
    dictionary: a present key keeps its place. *)
Fixpoint dict_set (d : list (string * list Row)) (k : string) (v : list Row)
  : list (string * list Row) :=
  match d with
  | [] => [(k, v)]
  | (k', v') :: r =>
      if String.eqb k' k then (k, v) :: r else (k', v') :: dict_set r k v
  end.

(** [zip] of three lists. *)
Fixpoint zip3 {A B C : Type} (xs : list A) (ys : list B) (zs : list C)
  : list (A * B * C) :=
  match xs, ys, zs with
  | x :: xr, y :: yr, z :: zr => (x, y, z) :: zip3 xr yr zr
  | _, _, _ => []
  end.

(** The body of the loop over the folders. *)
Definition process_one_folder (all_results : list (string * list Row))
  (job : string * string * Multiplier) : exc (list (string * list Row)) :=
  let '(folder_path, pressure_file_path, multiplier) := job in
  match read_pressure_csv pressure_file_path with
  | None => Ok all_results
  | Some pressure_data =>
      results_df <- process_folder folder_path pressure_data
                      (max_multiplier multiplier)
                      (pressure_multiplier multiplier) ;;
      match results_df with
      | _ :: _ => Ok (dict_set all_results folder_path results_df)
      | [] => Ok all_results
      end
  end.

(** [pd.concat] raises when it is given nothing. *)
Definition pd_concat (frames : list (list Row)) : exc (list Row) :=
  match frames with
  | [] => Raise (ValueError "No objects to concatenate")
  | _ => Ok (concat frames)
  end.

(** The rows written to [output_path]; the two plots are left out. *)
Definition process_multiple_folders (folder_paths pressure_file_paths : list string)
  (multipliers : list Multiplier) : exc (list Row) :=
  all_results <- for_each (zip3 folder_paths pressure_file_paths multipliers)
                   process_one_folder [] ;;
  pd_concat (map snd all_results).

End Aggregator.

(* ===================================================================== *)
(** ** Vocabulary of the specification *)
(* ===================================================================== *)

(** The peaks the loop of [find_maxes] has confirmed, before the first one
    is dropped. *)
Definition raw_confirmed (df : DataFrame) (channel : string) : list Q :=
  snd (scan (np_mean (getcol df channel)) (getcol df channel)).





(** The outlier trim of [find_maxes]: the statements after the first peak
    has been dropped, on the peaks that remain. *)
Definition trim_spread (remaining : list Q) : snum :=
  if (1 <? length remaining)%nat then np_std remaining 1 else of_Q 10.

Definition in_band (remaining : list Q) (m : Q) : bool :=
  (m >=? np_mean remaining -' 2 *' trim_spread remaining)
  && (m <=? np_mean remaining +' 2 *' trim_spread remaining).

(** The trim in real arithmetic: mean, Bessel-corrected sample standard
    deviation (divisor N - 1), and the spread that sets the bounds. *)
Definition Rsum (xs : list R) : R := fold_right Rplus 0%R xs.

Definition mean_R (xs : list Q) : R :=
  (Rsum (map Q2R xs) / INR (length xs))%R.

Definition sample_std_R (xs : list Q) : R :=
  sqrt (Rsum (map (fun x => (Q2R x - mean_R xs) * (Q2R x - mean_R xs))%R xs)
        / (INR (length xs) - 1)).

Definition spread_R (xs : list Q) : R :=
  if (length xs <? 2)%nat then 10%R else sample_std_R xs.

(** The real number a [surd] stands for. *)
Definition surd_R (s : surd) : R :=
  (Q2R (rat s) + Q2R (coef s) * sqrt (Q2R (rad s)))%R.

(** The label [map_pressure_to_file] hands to [strptime]. *)
Definition capture_label (file_name : string) : string :=
  replace (replace (replace file_name "Pokit DSO Export " "") ".csv" "")
          "-" " ".

(** The slope sequence of the specification, element by element. *)
Definition slope_at (times values : list Q) (i : nat) : Q :=
  (nth (S i) values 0 - nth i values 0) / (nth (S i) times 0 - nth i times 0).

(** The median of a sequence given a sorted copy of it: the middle value,
    or the mean of the two middle values. *)
Definition median_of_sorted (sorted : list Q) : Q :=
  let n := length sorted in
  if Nat.even n
  then (nth (n / 2 - 1) sorted 0 + nth (n / 2) sorted 0) / 2
  else nth (n / 2) sorted 0.

Definition is_median (xs : list Q) (m : Q) : Prop :=
  exists sorted,
    Permutation sorted xs /\ StronglySorted Qle sorted
    /\ m = median_of_sorted sorted.

(** Sorting on the exact carrier, the image of [sort] on finite data. *)
Fixpoint Qinsert (x : Q) (l : list Q) : list Q :=
  match l with
  | [] => [x]
  | y :: r => if Qle_bool x y then x :: l else y :: Qinsert x r
  end.

Fixpoint Qsort (l : list Q) : list Q :=
  match l with
  | [] => []
  | x :: r => Qinsert x (Qsort r)
  end.

(* ===================================================================== *)
(** ** A concrete environment *)
(* ===================================================================== *)

(** An [argsort] that computes: insertion by key, stable. *)
Fixpoint insert_by (ks : list Z) (i : nat) (l : list nat) : list nat :=
  match l with
  | [] => [i]
  | j :: r =>
      if (nth i ks 0 <=? nth j ks 0)%Z then i :: l else j :: insert_by ks i r
  end.

Definition argsort_stable (ks : list Z) : list nat :=
  fold_right (insert_by ks) [] (seq 0 (length ks)).

(** A [strptime] that computes, for the labels the exporter writes: six
    fields of digits separated by single blanks, a year of four digits and
    one or two digits elsewhere, each in its calendar range. *)
Definition digit_of (c : ascii) : option Z :=
  let n := Z.of_nat (nat_of_ascii c) in
  if ((48 <=? n) && (n <=? 57))%Z then Some (n - 48)%Z else None.

Fixpoint digits (s : string) (acc : Z) : option Z :=
  match s with
  | EmptyString => Some acc
  | String c r =>
      match digit_of c with
      | Some d => digits r (10 * acc + d)%Z
      | None => None
      end
  end.

Fixpoint fields (s cur : string) : list string :=
  match s with
  | EmptyString => [cur]
  | String c r =>
      if Ascii.eqb c " " then cur :: fields r EmptyString
      else fields r (cur ++ String c EmptyString)
  end.

Definition field (lo hi : nat) (s : string) : option Z :=
  if ((lo <=? String.length s) && (String.length s <=? hi))%nat
  then digits s 0
  else None.

Definition leap (y : Z) : bool :=
  ((y mod 4 =? 0) && (negb (y mod 100 =? 0) || (y mod 400 =? 0)))%Z.

Definition days_in_month (y m : Z) : Z :=
  if (m =? 2)%Z then (if leap y then 29 else 28)%Z
  else if ((m =? 4) || (m =? 6) || (m =? 9) || (m =? 11))%Z then 30%Z
  else 31%Z.

(** Days from 1970-01-01 to the civil date. *)
Definition days_from_civil (y m d : Z) : Z :=
  let y' := (if m <=? 2 then y - 1 else y)%Z in
  let era := (y' / 400)%Z in
  let yoe := (y' - era * 400)%Z in
  let mp := (if 2 <? m then m - 3 else m + 9)%Z in
  let doy := ((153 * mp + 2) / 5 + d - 1)%Z in
  let doe := (yoe * 365 + yoe / 4 - yoe / 100 + doy)%Z in
  (era * 146097 + doe - 719468)%Z.

Definition in_range (lo x hi : Z) : bool := ((lo <=? x) && (x <=? hi))%Z.

Definition strptime_ref (s : string) : option Z :=
  match fields s EmptyString with
  | [fy; fm; fd; fh; fmi; fs] =>
      match field 4 4 fy, field 1 2 fm, field 1 2 fd,
            field 1 2 fh, field 1 2 fmi, field 1 2 fs with
      | Some y, Some m, Some d, Some hh, Some mm, Some ss =>
          if in_range 1 y 9999 && in_range 1 m 12
             && in_range 1 d (days_in_month y m)
             && in_range 0 hh 23 && in_range 0 mm 59 && in_range 0 ss 59
          then Some (days_from_civil y m d * 86400 + hh * 3600 + mm * 60 + ss)%Z
          else None
      | _, _, _, _, _, _ => None
      end
  | _ => None
  end.

(** Two capture folders and their pressure logs.  [runA] holds a capture
    with one channel that yields a single peak and one that yields none,
    and a capture with several peaks; [runB] holds the same captures and,
    first in its listing, a file whose name carries no timestamp. *)
Definition capture_one : DataFrame :=
  [("Time (ms)"%string, [0; 1; 2; 3; 4; 5]);
   ("CH1"%string, [10; 1; -100; -100; -100; 1]);
   ("CH2"%string, [0; 1; 5; 1; 0; 6])].

Definition capture_many : DataFrame :=
  [("Time (ms)"%string, [0; 1; 2; 3; 4; 5; 6; 7; 8; 9; 10; 11; 12; 13]);
   ("CH1"%string, [6; -1; 6; -1; 6; -1; 6; -1; 6; -1; 6; -1; 50; -1])].

Definition log_A : PressureData :=
  [(1718647200%Z, 120); (1718647500%Z, 110); (1718647800%Z, 100)].

#[local] Instance bench : Env := {
  listdir folder :=
    if String.eqb folder "runA"
    then Ok ["Pokit DSO Export 2024-06-17-18-06-00.csv";
             "Pokit DSO Export 2024-06-17-18-11-00.csv";
             "readme.txt"]%string
    else if String.eqb folder "runB"
    then Ok ["Pokit DSO Export copy.csv";
             "Pokit DSO Export 2024-06-17-18-06-00.csv"]%string
    else Raise (FileNotFoundError folder);
  read_dso_csv path :=
    if String.eqb path "runA/Pokit DSO Export 2024-06-17-18-06-00.csv"
       || String.eqb path "runB/Pokit DSO Export 2024-06-17-18-06-00.csv"
       || String.eqb path "runB/Pokit DSO Export copy.csv"
    then Some capture_one
    else if String.eqb path "runA/Pokit DSO Export 2024-06-17-18-11-00.csv"
    then Some capture_many
    else None;
  read_pressure_csv path :=
    if String.eqb path "logA.csv" then Some log_A else None;
  strptime := strptime_ref;
  argsort := argsort_stable
}.

(* ===================================================================== *)
(** ** Vocabulary of the further properties *)
(* ===================================================================== *)

(** The sum of squared deviations from the mean, over the reals. *)
Definition sqdev_R (xs : list Q) : R :=
  Rsum (map (fun x => (Q2R x - mean_R xs) * (Q2R x - mean_R xs))%R xs).

(** A loop body that only adds rows at the end of the rows it is given,
    and raises or not regardless of them. *)
Definition appends {A : Type} (body : list Row -> A -> exc (list Row)) : Prop :=
  forall s x, body s x = bind (body [] x) (fun added => Ok (s ++ added)).

(** The files of a listing that [process_folder] reads rows from: the name
    passes the filter and [read_dso_csv] returns a table. *)
Definition is_capture {E : Env} (folder_path file_name : string) : bool :=
  endswith file_name ".csv" && contains "Pokit DSO Export" file_name
  && match read_dso_csv (path_join folder_path file_name) with
     | Some _ => true
     | None => false
     end.

(** What holds of every row of a folder. *)
Definition row_ok {E : Env} (mmul : Q) (folder_path : string)
  (files : list string) (row : Row) : Prop :=
  In (File_Name row) files
  /\ endswith (File_Name row) ".csv"
     && contains "Pokit DSO Export" (File_Name row) = true
  /\ exists df,
       read_dso_csv (path_join folder_path (File_Name row)) = Some df
       /\ In (Channel row) (columns df)
       /\ startswith (Channel row) "CH" = true
       /\ find_maxes df (Channel row) <> []
       /\ Median_Slope row = calculate_median_slope df (Channel row)
       /\ (0 < mmul -> exists mu, Mean_of_Maxes row = Fin mu /\ 0 < mu).

(** The pass over one folder reads the log and the folder gives [rows]. *)
Definition job_yields {E : Env} (job : string * string * Multiplier)
  (rows : list Row) : Prop :=
  let '(folder_path, pressure_file_path, multiplier) := job in
  exists pressure_data,
    read_pressure_csv pressure_file_path = Some pressure_data
    /\ process_folder folder_path pressure_data
         (max_multiplier multiplier) (pressure_multiplier multiplier)
       = Ok rows.

Definition nonempty (rows : list Row) : bool :=
  match rows with
  | [] => false
  | _ :: _ => true
  end.

Definition job_folder (job : string * string * Multiplier) : string :=
  fst (fst job).

(** [c] occurs in [s]. *)
Fixpoint occurs (c : ascii) (s : string) : bool :=
  match s with
  | EmptyString => false
  | String a r => Ascii.eqb a c || occurs c r
  end.

(** [s] with every dash turned into a blank. *)
Fixpoint dash_to_blank (s : string) : string :=
  match s with
  | EmptyString => EmptyString
  | String c r =>
      String (if Ascii.eqb c "-" then " "%char else c) (dash_to_blank r)
  end.

(** The first two loops of [read_dso_csv], on the rows [csv.reader] yields:
    rows are consumed up to the first one whose first field starts with
    [Time], which becomes [headers]; the non-empty rows after it become
    [data].  Without such a row [headers] is never bound, the table cannot
    be built and [read_dso_csv] returns [None]. *)
Definition is_header (row : list string) : bool :=
  match row with
  | [] => false
  | first :: _ => startswith first "Time"
  end.

Fixpoint skip_to_header (rows : list (list string))
  : option (list string * list (list string)) :=
  match rows with
  | [] => None
  | row :: rest =>
      if is_header row then Some (row, rest) else skip_to_header rest
  end.

Definition is_row (row : list string) : bool :=
  match row with
  | [] => false
  | _ :: _ => true
  end.

Definition dso_header_and_data (rows : list (list string))
  : option (list string * list (list string)) :=
  match skip_to_header rows with
  | Some (headers, rest) => Some (headers, filter is_row rest)
  | None => None
  end.

(** A second environment: [runA] as before, a folder [runC] with one
    capture, and a folder [vacant] with nothing in it. *)
#[local] Instance bench2 : Env := {
  listdir folder :=
    if String.eqb folder "runA"
    then Ok ["Pokit DSO Export 2024-06-17-18-06-00.csv";
             "Pokit DSO Export 2024-06-17-18-11-00.csv";
             "readme.txt"]%string
    else if String.eqb folder "runC"
    then Ok ["Pokit DSO Export 2024-06-17-18-01-00.csv"]%string
    else if String.eqb folder "vacant"
    then Ok []
    else Raise (FileNotFoundError folder);
  read_dso_csv path :=
    if String.eqb path "runA/Pokit DSO Export 2024-06-17-18-06-00.csv"
    then Some capture_one
    else if String.eqb path "runA/Pokit DSO Export 2024-06-17-18-11-00.csv"
            || String.eqb path "runC/Pokit DSO Export 2024-06-17-18-01-00.csv"
    then Some capture_many
    else None;
  read_pressure_csv path :=
    if String.eqb path "logA.csv" then Some log_A else None;
  strptime := strptime_ref;
  argsort := argsort_stable
}.
(* ===================================================================== *)
(** * Properties *)
(* ===================================================================== *)

(** ** Arithmetic of the model *)

Lemma Qltb_lt (x y : Q) : Qltb x y = true <-> x < y.
Proof.
  unfold Qltb. rewrite negb_true_iff, <- not_true_iff_false, Qle_bool_iff.
  split; intro H; [apply Qnot_le_lt | apply Qlt_not_le]; exact H.
Qed.


Lemma Qlen_pos (xs : list Q) : xs <> [] -> 0 < Qlen xs.
Proof.
  destruct xs as [|x r]; [congruence|intros _].
  unfold Qlen, Qlt; simpl. lia.
Qed.

Lemma fdiv_nonzero (x y : Q) : ~ y == 0 -> fdiv x y = Fin (x / y).
Proof.
  intro H. unfold fdiv.
  destruct (Qeq_bool y 0) eqn:Hy; [|reflexivity].
  apply Qeq_bool_iff in Hy. contradiction.
Qed.

(** The mean of a non-empty sequence is its sum over its count. *)
Lemma np_mean_nonempty (xs : list Q) :
  xs <> [] -> np_mean xs = Fin (Qsum xs / Qlen xs).
Proof.
  intro H. apply fdiv_nonzero. apply Qlen_pos in H. lra.
Qed.

Lemma np_mean_nil : np_mean [] = NaN.
Proof. reflexivity. Qed.


(** ** The scan of [find_maxes] *)

Lemma scan_snoc (av : num) (l : list Q) (x : Q) :
  scan av (l ++ [x]) = scan_step av (scan av l) x.
Proof. unfold scan. rewrite fold_left_app. reflexivity. Qed.





(** ** Warm-up discard and trim *)

Lemma filter_filter {A : Type} (f g : A -> bool) (l : list A) :
  filter g (filter f l) = filter (fun a => f a && g a) l.
Proof.
  induction l as [|a l IH]; simpl; [reflexivity|].
  destruct (f a); simpl; [destruct (g a)|]; rewrite IH; reflexivity.
Qed.

Lemma pop0_tl (maxes : list Q) : pop0 maxes = tl maxes.
Proof. destruct maxes; reflexivity. Qed.

(** [find_maxes] is the trim of the confirmed peaks without the first. *)
Lemma find_maxes_decompose (df : DataFrame) (channel : string) :
  find_maxes df channel
  = filter (in_band (tl (raw_confirmed df channel)))
           (tl (raw_confirmed df channel)).
Proof.
  unfold find_maxes. fold (raw_confirmed df channel).
  rewrite pop0_tl. cbv zeta. rewrite filter_filter. reflexivity.
Qed.

(** C4: the first confirmed peak never reaches the result, which is drawn
    from the confirmed peaks after it; with no confirmed peak or a single
    one, the result is empty. *)
Theorem find_maxes_discards_first (df : DataFrame) (channel : string) :
  (exists keep, find_maxes df channel
                = filter keep (tl (raw_confirmed df channel)))
  /\ (length (raw_confirmed df channel) = 0%nat -> find_maxes df channel = [])
  /\ (length (raw_confirmed df channel) = 1%nat -> find_maxes df channel = []).
Proof.
  rewrite find_maxes_decompose. split; [eexists; reflexivity|].
  destruct (raw_confirmed df channel) as [|p [|q r]]; simpl;
    split; intro H; try reflexivity; discriminate.
Qed.

(** A series whose scan confirms the single peak 5. *)
Lemma find_maxes_discards_first_witness :
  let df := [("CH1"%string, [0; 5; 1])] in
  raw_confirmed df "CH1" = [5] /\ find_maxes df "CH1" = [].
Proof.
  split; [reflexivity|].
  apply (proj2 (proj2 (find_maxes_discards_first [("CH1"%string, [0; 5; 1])] "CH1"))).
  reflexivity.
Defined.

(** ** Every peak is the magnitude of a sample *)

(** A candidate that is confirmed is positive, whatever the floor. *)
Lemma confirmed_positive (av : num) (prev k : Q) :
  (Fin prev >? py_max (Fin (4 * Qabs k)) av) = true -> 0 < prev.
Proof.
  pose proof (Qabs_nonneg k) as Hk.
  unfold py_max. destruct av as [| |b|]; simpl.
  - rewrite Qltb_lt. lra.
  - rewrite Qltb_lt. lra.
  - destruct (Qltb (4 * Qabs k) b) eqn:Hb; simpl; rewrite Qltb_lt.
    + apply Qltb_lt in Hb. lra.
    + lra.
  - discriminate.
Qed.

(** The candidate is 0 or the magnitude of a sample seen so far, and so is
    every confirmed peak but never 0 by default. *)
Definition scan_inv (seen : list Q) (st : Q * list Q) : Prop :=
  (fst st = 0 \/ In (fst st) (map Qabs seen))
  /\ Forall (fun m => 0 < m /\ In m (map Qabs seen)) (snd st).

Lemma scan_step_inv (av : num) (seen : list Q) (st : Q * list Q) (k : Q) :
  scan_inv seen st -> scan_inv (seen ++ [k]) (scan_step av st k).
Proof.
  destruct st as [prev acc]. unfold scan_inv, scan_step.
  intros [Hp Hacc]. cbn [fst snd] in Hp, Hacc.
  assert (Hacc' : Forall (fun m => 0 < m /\ In m (map Qabs (seen ++ [k]))) acc).
  { eapply Forall_impl; [|exact Hacc]. simpl. intros m [H0 Hin].
    split; [exact H0|]. rewrite map_app, in_app_iff. left; exact Hin. }
  assert (Hk : In (Qabs k) (map Qabs (seen ++ [k]))).
  { rewrite map_app, in_app_iff. right. left. reflexivity. }
  destruct (Fin prev >? py_max (Fin (4 * Qabs k)) av) eqn:Hc; cbn [fst snd].
  - split; [right; exact Hk|].
    apply Forall_app. split; [exact Hacc'|].
    constructor; [|constructor].
    apply confirmed_positive in Hc. split; [exact Hc|].
    destruct Hp as [Hp|Hp].
    + rewrite Hp in Hc. exfalso. exact (Qlt_irrefl 0 Hc).
    + rewrite map_app, in_app_iff. left; exact Hp.
  - destruct (prev <? Qabs k); cbn [fst snd].
    + split; [right; exact Hk | exact Hacc'].
    + split; [|exact Hacc'].
      destruct Hp as [Hp|Hp]; [left; exact Hp|].
      right. rewrite map_app, in_app_iff. left; exact Hp.
Qed.

Lemma scan_keeps_inv (av : num) (series : list Q) :
  scan_inv series (scan av series).
Proof.
  induction series as [|k l IH] using rev_ind.
  - split; [left; reflexivity | constructor].
  - rewrite scan_snoc. apply scan_step_inv. exact IH.
Qed.

Lemma In_tl {A : Type} (a : A) (l : list A) : In a (tl l) -> In a l.
Proof. destruct l; simpl; [tauto | right; assumption]. Qed.

(** C10: every peak [find_maxes] returns is nonnegative and is the absolute
    value of a sample of the series. *)
Theorem find_maxes_peaks_are_sample_magnitudes
  (df : DataFrame) (channel : string) (m : Q) :
  In m (find_maxes df channel) ->
  0 <= m /\ exists x, In x (getcol df channel) /\ m = Qabs x.
Proof.
  rewrite find_maxes_decompose. intro Hin.
  apply filter_In in Hin. destruct Hin as [Hin _]. apply In_tl in Hin.
  destruct (scan_keeps_inv (np_mean (getcol df channel)) (getcol df channel))
    as [_ Hall].
  rewrite Forall_forall in Hall. destruct (Hall m Hin) as [Hpos Hm].
  split; [lra|].
  apply in_map_iff in Hm. destruct Hm as (x & Hx & Hxin).
  exists x. split; [exact Hxin | symmetry; exact Hx].
Qed.

Lemma find_maxes_peaks_are_sample_magnitudes_witness :
  let df := [("CH1"%string, [10; 1; -100; -100; -100; 1])] in
  In 100 (find_maxes df "CH1")
  /\ 0 <= 100 /\ exists x, In x (getcol df "CH1") /\ 100 = Qabs x.
Proof.
  assert (H : In 100 (find_maxes [("CH1"%string, [10; 1; -100; -100; -100; 1])] "CH1")).
  { left. reflexivity. }
  split; [exact H|].
  exact (find_maxes_peaks_are_sample_magnitudes _ _ _ H).
Defined.

(** ** The trim bounds in real arithmetic *)

Lemma Qle_bool_Rle (x y : Q) : Qle_bool x y = true <-> (Q2R x <= Q2R y)%R.
Proof.
  rewrite Qle_bool_iff. split; [apply Qle_Rle | apply Rle_Qle].
Qed.

Lemma sq_le_iff (x y : R) :
  (0 <= x)%R -> (0 <= y)%R -> (x * x <= y * y)%R <-> (x <= y)%R.
Proof.
  intros Hx Hy. split; intro H.
  - destruct (Rle_lt_dec x y) as [Hle|Hlt]; [exact Hle|].
    assert (0 < (x - y) * (x + y))%R by (apply Rmult_lt_0_compat; lra).
    lra.
  - assert (0 <= (y - x) * (y + x))%R by (apply Rmult_le_pos; lra).
    lra.
Qed.

(** [root_le b r d] decides [b * sqrt r <= d]. *)
Lemma root_le_spec (b r d : Q) :
  0 <= r ->
  root_le b r d = true <-> (Q2R b * sqrt (Q2R r) <= Q2R d)%R.
Proof.
  intro Hr. apply Qle_Rle in Hr. rewrite RMicromega.Q2R_0 in Hr.
  pose proof (sqrt_pos (Q2R r)) as Hs.
  pose proof (sqrt_sqrt (Q2R r) Hr) as Hss.
  unfold root_le.
  set (s := sqrt (Q2R r)) in *.
  assert (Hsq : (Q2R (b * b * r) = (Q2R b * s) * (Q2R b * s))%R).
  { rewrite !Q2R_mult, <- Hss. ring. }
  destruct (Qle_bool 0 b) eqn:Hb.
  - rewrite Qle_bool_Rle, RMicromega.Q2R_0 in Hb.
    rewrite andb_true_iff, !Qle_bool_Rle, Hsq, Q2R_mult, RMicromega.Q2R_0.
    assert (Hx : (0 <= Q2R b * s)%R) by (apply Rmult_le_pos; assumption).
    split.
    + intros [H0 Hle]. apply sq_le_iff; assumption.
    + intro H. assert (H0 : (0 <= Q2R d)%R) by lra.
      split; [exact H0 | apply sq_le_iff; assumption].
  - assert (Hb' : (Q2R b < 0)%R).
    { apply Rnot_le_lt. intro H. rewrite <- RMicromega.Q2R_0 in H.
      apply Qle_bool_Rle in H. congruence. }
    rewrite orb_true_iff, !Qle_bool_Rle, Hsq, Q2R_mult, RMicromega.Q2R_0.
    assert (Hx : (Q2R b * s <= 0)%R).
    { replace 0%R with (Q2R b * 0)%R by ring.
      apply Rmult_le_compat_neg_l; lra. }
    destruct (Rle_lt_dec 0 (Q2R d)) as [Hd|Hd].
    + split; [intros _; lra | intros _; left; exact Hd].
    + assert (Hiff : (- Q2R d * - Q2R d <= - (Q2R b * s) * - (Q2R b * s))%R
                     <-> (- Q2R d <= - (Q2R b * s))%R)
        by (apply sq_le_iff; lra).
      split.
      * intros [H0 | Hle]; [lra|].
        assert (- Q2R d <= - (Q2R b * s))%R; [apply Hiff|]; lra.
      * intro H. right.
        assert (- Q2R d * - Q2R d <= - (Q2R b * s) * - (Q2R b * s))%R;
          [apply Hiff|]; lra.
Qed.

Lemma surd_le_Q_spec (s : surd) (m : Q) :
  0 <= rad s -> surd_le_Q s m = true <-> (surd_R s <= Q2R m)%R.
Proof.
  intro Hr. unfold surd_le_Q, surd_R.
  rewrite (root_le_spec _ _ _ Hr), Q2R_minus. split; intro H; lra.
Qed.

Lemma Q_le_surd_spec (m : Q) (s : surd) :
  0 <= rad s -> Q_le_surd m s = true <-> (Q2R m <= surd_R s)%R.
Proof.
  intro Hr. unfold Q_le_surd, surd_R.
  rewrite (root_le_spec _ _ _ Hr), Q2R_minus, Q2R_opp. split; intro H; lra.
Qed.

Lemma Q2R_Qsum (xs : list Q) : Q2R (Qsum xs) = Rsum (map Q2R xs).
Proof.
  induction xs as [|x r IH]; simpl.
  - apply RMicromega.Q2R_0.
  - rewrite Q2R_plus, IH. reflexivity.
Qed.

Lemma Q2R_inject_nat (n : nat) : Q2R (inject_Z (Z.of_nat n)) = INR n.
Proof.
  unfold Q2R; simpl. rewrite INR_IZR_INZ. lra.
Qed.

Lemma Q2R_Qlen (xs : list Q) : Q2R (Qlen xs) = INR (length xs).
Proof. apply Q2R_inject_nat. Qed.

Lemma Qsum_nonneg (xs : list Q) : Forall (fun x => 0 <= x) xs -> 0 <= Qsum xs.
Proof.
  induction 1 as [|x r Hx _ IH]; simpl; [lra|lra].
Qed.

Lemma Qsquare_nonneg (a : Q) : 0 <= a * a.
Proof.
  destruct (Qlt_le_dec a 0) as [Hneg|Hpos].
  - setoid_replace (a * a) with ((- a) * (- a)) by ring.
    apply Qmult_le_0_compat; lra.
  - apply Qmult_le_0_compat; exact Hpos.
Qed.

Lemma sqdev_nonneg (m : Q) (xs : list Q) : 0 <= sqdev m xs.
Proof.
  unfold sqdev. apply Qsum_nonneg. apply Forall_forall.
  intros y Hy. apply in_map_iff in Hy. destruct Hy as (x & <- & _).
  apply Qsquare_nonneg.
Qed.

(** The mean of the model is the real mean. *)
Lemma np_mean_R (xs : list Q) :
  xs <> [] -> exists mu, np_mean xs = Fin mu /\ Q2R mu = mean_R xs.
Proof.
  intro H. exists (Qsum xs / Qlen xs). split; [apply np_mean_nonempty; exact H|].
  unfold mean_R. rewrite Q2R_div, Q2R_Qsum, Q2R_Qlen; [reflexivity|].
  apply Qlen_pos in H. lra.
Qed.

Lemma Q2R_sqdev (m : Q) (xs : list Q) :
  Q2R (sqdev m xs)
  = Rsum (map (fun x => (Q2R x - Q2R m) * (Q2R x - Q2R m))%R xs).
Proof.
  unfold sqdev. rewrite Q2R_Qsum, map_map. f_equal.
  apply map_ext. intro x. rewrite Q2R_mult, Q2R_minus. reflexivity.
Qed.

(** With two values or more, [np.std(_, ddof=1)] is the square root of a
    nonnegative rational whose real value is the Bessel-corrected
    variance. *)
Lemma np_std_R (xs : list Q) :
  (1 < length xs)%nat ->
  exists v, np_std xs 1 = Fin (Surd 0 1 v) /\ 0 <= v
            /\ sqrt (Q2R v) = sample_std_R xs.
Proof.
  intro Hlen.
  assert (Hne : xs <> []) by (destruct xs; [simpl in Hlen; lia | congruence]).
  destruct (np_mean_R xs Hne) as (mu & Hmu & HmuR).
  assert (Hd : 0 < inject_Z (Z.of_nat (length xs - 1))).
  { unfold Qlt; simpl. lia. }
  exists (sqdev mu xs / inject_Z (Z.of_nat (length xs - 1))).
  unfold np_std. rewrite Hmu, fdiv_nonzero by lra.
  split; [reflexivity | split].
  - apply Qle_shift_div_l; [exact Hd|]. pose proof (sqdev_nonneg mu xs). lra.
  - unfold sample_std_R. f_equal.
    rewrite Q2R_div by lra.
    rewrite Q2R_sqdev, Q2R_inject_nat, HmuR, minus_INR by lia.
    reflexivity.
Qed.



(** ** Scaling the peaks *)




(** ** Rows of the folder aggregator *)

Section AggregatorFacts.
Context {E : Env}.
Variables (pressure_data : PressureData) (mmul pmul : Q) (file_name : string).
Variable df : DataFrame.

(** C8: a channel whose scaled peak set is empty adds no row and raises
    nothing, with no call to the aligner, whatever the file name; the
    loop over the columns goes on with the columns after it, and so the
    loop over the files with the files after this one. *)
Theorem empty_peaks_no_row (results : list Row) (col : string)
  (cols : list string) :
  map (fun m => m * mmul) (find_maxes df col) = [] ->
  process_column pressure_data mmul pmul file_name df results col = Ok results
  /\ for_each (col :: cols)
       (process_column pressure_data mmul pmul file_name df) results
     = for_each cols
         (process_column pressure_data mmul pmul file_name df) results.
Proof.
  intro Hempty.
  assert (H : process_column pressure_data mmul pmul file_name df results col
              = Ok results).
  { unfold process_column. destruct (startswith col "CH"); [|reflexivity].
    rewrite Hempty. reflexivity. }
  split; [exact H|]. simpl. rewrite H. reflexivity.
Qed.

(** [np.std(_, ddof=1)] of a single value is NaN. *)
Lemma np_std_single (p : Q) : np_std [p] 1 = NaN.
Proof.
  unfold np_std. rewrite np_mean_nonempty by discriminate.
  unfold fdiv. simpl Qeq_bool. cbv iota.
  replace (Qsign (sqdev (Qsum [p] / Qlen [p]) [p])) with Eq; [reflexivity|].
  symmetry. unfold Qsign. apply Qeq_alt.
  unfold sqdev, Qlen; simpl. field.
Qed.

(** C9: when the scaled peak set of a channel is the single peak [p] and
    the aligner returns, the channel adds one row whose standard deviation
    is NaN, not the number 0, and whose mean, slope and pressure are the
    computed ones. *)
Theorem single_peak_row_has_nan_std (results : list Row) (col : string)
  (p : Q) (pressure : option Q) :
  startswith col "CH" = true ->
  map (fun m => m * mmul) (find_maxes df col) = [p] ->
  map_pressure_to_file pressure_data file_name = Ok pressure ->
  exists row,
    process_column pressure_data mmul pmul file_name df results col
    = Ok (results ++ [row])
    /\ Standard_Deviation_of_Maxes row = NaN
    /\ Standard_Deviation_of_Maxes row <> of_Q 0
    /\ num_eq (Mean_of_Maxes row) (Fin p)
    /\ Median_Slope row = calculate_median_slope df col
    /\ Pressure row = option_map (fun x => x * pmul) pressure
    /\ File_Name row = file_name /\ Channel row = col.
Proof.
  intros Hch Hone Hp.
  unfold process_column. rewrite Hch, Hone, Hp. cbn [bind].
  eexists. split; [reflexivity|]. cbn [Standard_Deviation_of_Maxes
    Mean_of_Maxes Median_Slope Pressure File_Name Channel].
  rewrite np_std_single.
  split; [reflexivity|]. split; [discriminate|]. split.
  { rewrite np_mean_nonempty by discriminate. unfold Qlen; simpl. field. }
  split; [reflexivity|]. split; [destruct pressure; reflexivity|].
  split; reflexivity.
Qed.

(** A file that passes the name filter, is read, has a channel with a peak
    and a name [strptime] rejects makes the body of the file loop raise. *)
Lemma process_file_raises (folder_path : string) (results : list Row) :
  endswith file_name ".csv" && contains "Pokit DSO Export" file_name = true ->
  read_dso_csv (path_join folder_path file_name) = Some df ->
  Exists (fun col => startswith col "CH" = true
                     /\ map (fun m => m * mmul) (find_maxes df col) <> [])
         (columns df) ->
  strptime (capture_label file_name) = None ->
  process_file folder_path pressure_data mmul pmul results file_name
  = Raise (ValueError (capture_label file_name)).
Proof.
  intros Hname Hread Hcol Hparse.
  unfold process_file. rewrite Hname, Hread.
  assert (Hraise : forall col rs,
            startswith col "CH" = true ->
            map (fun m => m * mmul) (find_maxes df col) <> [] ->
            process_column pressure_data mmul pmul file_name df rs col
            = Raise (ValueError (capture_label file_name))).
  { intros col rs Hch Hne. unfold process_column. rewrite Hch.
    destruct (map (fun m => m * mmul) (find_maxes df col)); [congruence|].
    unfold map_pressure_to_file. fold (capture_label file_name).
    rewrite Hparse. reflexivity. }
  assert (Hstep : forall col rs,
            (exists rs', process_column pressure_data mmul pmul file_name df
                           rs col = Ok rs')
            \/ process_column pressure_data mmul pmul file_name df rs col
               = Raise (ValueError (capture_label file_name))).
  { intros col rs. unfold process_column.
    destruct (startswith col "CH"); [|left; eexists; reflexivity].
    destruct (map (fun m => m * mmul) (find_maxes df col));
      [left; eexists; reflexivity|].
    right. unfold map_pressure_to_file. fold (capture_label file_name).
    rewrite Hparse. reflexivity. }
  revert results. induction Hcol as [col cols [Hch Hne] | col cols _ IH];
    intro results; simpl.
  - rewrite (Hraise col results Hch Hne). reflexivity.
  - destruct (Hstep col results) as [[rs' Hok] | Hr]; rewrite ?Hok, ?Hr; simpl.
    + apply IH.
    + reflexivity.
Qed.

End AggregatorFacts.

(** The first exception leaves a [for] loop, whatever comes after. *)
Lemma for_each_raise {A S : Type} (body : S -> A -> exc S)
  (before after : list A) (x : A) (s s' : S) (e : exn) :
  for_each before body s = Ok s' -> body s' x = Raise e ->
  for_each (before ++ x :: after) body s = Raise e.
Proof.
  revert s. induction before as [|a l IH]; intros s Hb Hx; simpl in *.
  - injection Hb as ->. rewrite Hx. reflexivity.
  - destruct (body s a) as [s1|e1]; simpl in *; [|discriminate].
    apply IH; assumption.
Qed.

(** C2 (the program departs from it): a capture whose name [strptime]
    rejects, once one of its channels has a peak, raises out of
    [process_folder]; the rows of the files before it are lost and the
    files after it are not processed. *)
Theorem unparseable_name_aborts_folder {E : Env} (folder_path : string)
  (pressure_data : PressureData) (mmul pmul : Q)
  (before after : list string) (file_name : string) (df : DataFrame)
  (results : list Row) :
  listdir folder_path = Ok (before ++ file_name :: after) ->
  for_each before (process_file folder_path pressure_data mmul pmul) []
  = Ok results ->
  endswith file_name ".csv" && contains "Pokit DSO Export" file_name = true ->
  read_dso_csv (path_join folder_path file_name) = Some df ->
  Exists (fun col => startswith col "CH" = true
                     /\ map (fun m => m * mmul) (find_maxes df col) <> [])
         (columns df) ->
  strptime (capture_label file_name) = None ->
  process_folder folder_path pressure_data mmul pmul
  = Raise (ValueError (capture_label file_name)).
Proof.
  intros Hls Hbefore Hname Hread Hcol Hparse.
  unfold process_folder. rewrite Hls. cbn [bind].
  apply for_each_raise with (s' := results); [exact Hbefore|].
  apply process_file_raises with (df := df); assumption.
Qed.

(** In [runB] the file [Pokit DSO Export copy.csv] comes before a
    well-named capture: the folder yields no row, and a run over [runA]
    and [runB] writes nothing although [runA] alone yields two rows. *)
Lemma unparseable_name_aborts_folder_witness :
  process_folder (E := bench) "runB" log_A 2 3 = Raise (ValueError "copy")
  /\ process_multiple_folders (E := bench)
       ["runA"; "runB"]%string ["logA.csv"; "logA.csv"]%string
       [ {| max_multiplier := 2; pressure_multiplier := 3 |};
         {| max_multiplier := 2; pressure_multiplier := 3 |} ]
     = Raise (ValueError "copy")
  /\ exists r1 r2,
       process_multiple_folders (E := bench)
         ["runA"]%string ["logA.csv"]%string
         [ {| max_multiplier := 2; pressure_multiplier := 3 |} ]
       = Ok [r1; r2].
Proof.
  split; [|split; [reflexivity | eexists; eexists; reflexivity]].
  apply (unparseable_name_aborts_folder (E := bench) "runB" log_A 2 3
           [] ["Pokit DSO Export 2024-06-17-18-06-00.csv"%string]
           "Pokit DSO Export copy.csv" capture_one []);
    try reflexivity.
  right. left. split; [reflexivity | discriminate].
Defined.

Lemma empty_peaks_no_row_witness :
  map (fun m => m * 2) (find_maxes capture_one "CH2") = []
  /\ process_column (E := bench) log_A 2 3 "Pokit DSO Export copy.csv"
       capture_one [] "CH2" = Ok []
  /\ for_each ["CH2"; "CH3"]%string
       (process_column (E := bench) log_A 2 3 "Pokit DSO Export copy.csv"
          capture_one) []
     = for_each ["CH3"]%string
         (process_column (E := bench) log_A 2 3 "Pokit DSO Export copy.csv"
            capture_one) [].
Proof.
  split; [reflexivity|].
  apply (empty_peaks_no_row (E := bench) log_A 2 3
           "Pokit DSO Export copy.csv" capture_one [] "CH2" ["CH3"%string]).
  reflexivity.
Defined.

Lemma single_peak_row_has_nan_std_witness :
  exists row,
    process_column (E := bench) log_A 2 3
      "Pokit DSO Export 2024-06-17-18-06-00.csv" capture_one [] "CH1"
    = Ok ([] ++ [row])
    /\ Standard_Deviation_of_Maxes row = NaN
    /\ Standard_Deviation_of_Maxes row <> of_Q 0
    /\ num_eq (Mean_of_Maxes row) (Fin 200)
    /\ Median_Slope row = calculate_median_slope capture_one "CH1"
    /\ Pressure row = option_map (fun x => x * 3) (Some 110)
    /\ File_Name row = "Pokit DSO Export 2024-06-17-18-06-00.csv"%string
    /\ Channel row = "CH1"%string.
Proof.
  apply (single_peak_row_has_nan_std (E := bench) log_A 2 3
           "Pokit DSO Export 2024-06-17-18-06-00.csv" capture_one []
           "CH1" 200 (Some 110)); reflexivity.
Defined.

(** ** The nearest pressure sample *)

Section AlignerFacts.
Context {E : Env} {AS : ArgsortSpec E}.

(** The first position [argsort] returns holds a smallest key. *)
Lemma argsort_head_minimal (ks : list Z) (i : nat) (rest : list nat) :
  argsort ks = i :: rest ->
  (i < length ks)%nat
  /\ forall j, (j < length ks)%nat -> (nth i ks 0 <= nth j ks 0)%Z.
Proof.
  intro Hs.
  pose proof (argsort_perm ks) as Hperm.
  pose proof (argsort_sorted ks) as Hsorted.
  rewrite Hs in Hperm, Hsorted.
  split.
  - apply in_seq with (start := 0%nat).
    eapply Permutation_in; [exact Hperm | left; reflexivity].
  - intros j Hj.
    assert (Hin : In j (i :: rest)).
    { eapply Permutation_in; [symmetry; exact Hperm|].
      apply in_seq. lia. }
    destruct Hin as [<- | Hin]; [lia|].
    apply StronglySorted_inv in Hsorted. destruct Hsorted as [_ Hall].
    rewrite Forall_forall in Hall. apply Hall. exact Hin.
Qed.

Lemma argsort_nil_iff (ks : list Z) : argsort ks = [] <-> ks = [].
Proof.
  pose proof (argsort_perm ks) as Hperm. split; intro H.
  - rewrite H in Hperm. apply Permutation_nil in Hperm.
    destruct ks; [reflexivity | discriminate].
  - subst ks. apply Permutation_sym, Permutation_nil in Hperm. exact Hperm.
Qed.

(** C6: once the name of the capture has given the query time, the aligner
    returns; it returns no pressure exactly when the pressure series is
    empty, and otherwise the pressure of a sample whose distance in time to
    the query is the least of the whole series. *)
Theorem map_pressure_to_file_nearest (pressure_data : PressureData)
  (file_name : string) (file_time : Z) :
  strptime (capture_label file_name) = Some file_time ->
  exists r,
    map_pressure_to_file pressure_data file_name = Ok r
    /\ (r = None <-> pressure_data = [])
    /\ forall p, r = Some p ->
         exists ts, In (ts, p) pressure_data
           /\ forall ts' p', In (ts', p') pressure_data ->
                (Z.abs (ts - file_time) <= Z.abs (ts' - file_time))%Z.
Proof.
  intro Hparse. unfold map_pressure_to_file.
  fold (capture_label file_name). rewrite Hparse. cbn [bind].
  set (ks := abs_diff pressure_data file_time).
  assert (Hlen : length ks = length pressure_data)
    by (unfold ks, abs_diff; apply length_map).
  destruct (argsort ks) as [|i rest] eqn:Hs.
  - apply argsort_nil_iff in Hs.
    assert (Hpd : pressure_data = []).
    { destruct pressure_data; [reflexivity|]. rewrite Hs in Hlen. discriminate. }
    exists None. simpl. split; [reflexivity|]. split.
    + split; intros _; [exact Hpd | reflexivity].
    + intros p Hp. discriminate.
  - destruct (argsort_head_minimal ks i rest Hs) as [Hi Hmin].
    rewrite Hlen in Hi.
    destruct (nth_error pressure_data i) as [[ts p]|] eqn:Hrow.
    2: { apply nth_error_None in Hrow. lia. }
    exists (Some p). simpl. rewrite Hrow. simpl.
    split; [reflexivity|]. split.
    + split; [discriminate|]. intro Hpd. subst pressure_data.
      simpl in Hi. lia.
    + intros p0 Hp0. injection Hp0 as <-.
      exists ts. split; [eapply nth_error_In; exact Hrow|].
      intros ts' p' Hin.
      apply In_nth_error in Hin. destruct Hin as [j Hj].
      assert (Hjlt : (j < length pressure_data)%nat).
      { apply nth_error_Some. congruence. }
      assert (Hkey : forall n t q, nth_error pressure_data n = Some (t, q) ->
                nth n ks 0%Z = Z.abs (t - file_time)).
      { intros n t q Hn. unfold ks, abs_diff.
        apply nth_error_nth. rewrite nth_error_map, Hn. reflexivity. }
      rewrite <- (Hkey i ts p Hrow), <- (Hkey j ts' p' Hj).
      apply Hmin. lia.
Qed.

End AlignerFacts.

(** The computing [argsort] keeps the promise of [ArgsortSpec]. *)
Lemma insert_by_perm (ks : list Z) (i : nat) (l : list nat) :
  Permutation (insert_by ks i l) (i :: l).
Proof.
  induction l as [|j r IH]; simpl; [reflexivity|].
  destruct (nth i ks 0 <=? nth j ks 0)%Z; [reflexivity|].
  rewrite IH. apply perm_swap.
Qed.

Lemma insert_by_sorted (ks : list Z) (i : nat) (l : list nat) :
  StronglySorted (fun a b => (nth a ks 0 <= nth b ks 0)%Z) l ->
  StronglySorted (fun a b => (nth a ks 0 <= nth b ks 0)%Z) (insert_by ks i l).
Proof.
  induction 1 as [|j r Hr IH Hall]; simpl.
  - constructor; constructor.
  - destruct (Z.leb_spec (nth i ks 0) (nth j ks 0))%Z as [Hle|Hgt].
    + constructor; [constructor; assumption|].
      constructor; [exact Hle|].
      eapply Forall_impl; [|exact Hall]. simpl. intros a Ha. lia.
    + constructor; [exact IH|].
      rewrite Forall_forall. intros a Ha.
      apply (Permutation_in _ (insert_by_perm ks i r)) in Ha.
      destruct Ha as [<- | Ha]; [lia|].
      rewrite Forall_forall in Hall. apply Hall. exact Ha.
Qed.

Lemma fold_insert_by_perm (ks : list Z) (l : list nat) :
  Permutation (fold_right (insert_by ks) [] l) l.
Proof.
  induction l as [|i r IH]; simpl; [reflexivity|].
  rewrite insert_by_perm. constructor. exact IH.
Qed.

Lemma fold_insert_by_sorted (ks : list Z) (l : list nat) :
  StronglySorted (fun a b => (nth a ks 0 <= nth b ks 0)%Z)
                 (fold_right (insert_by ks) [] l).
Proof.
  induction l as [|i r IH]; simpl; [constructor|].
  apply insert_by_sorted. exact IH.
Qed.

#[local] Instance bench_argsort : ArgsortSpec bench.
Proof.
  split; intro ks; simpl; unfold argsort_stable.
  - apply fold_insert_by_perm.
  - apply fold_insert_by_sorted.
Qed.

(** Samples at 18:00, 18:05 and 18:10 and a capture taken at 18:06: the
    sample of 18:05 is returned. *)
Lemma map_pressure_to_file_nearest_witness :
  strptime (Env := bench)
    (capture_label "Pokit DSO Export 2024-06-17-18-06-00.csv")
  = Some 1718647560%Z
  /\ map_pressure_to_file (E := bench) log_A
       "Pokit DSO Export 2024-06-17-18-06-00.csv" = Ok (Some 110)
  /\ exists r,
       map_pressure_to_file (E := bench) log_A
         "Pokit DSO Export 2024-06-17-18-06-00.csv" = Ok r
       /\ (r = None <-> log_A = [])
       /\ forall p, r = Some p ->
            exists ts, In (ts, p) log_A
              /\ forall ts' p', In (ts', p') log_A ->
                   (Z.abs (ts - 1718647560) <= Z.abs (ts' - 1718647560))%Z.
Proof.
  split; [reflexivity | split; [reflexivity|]].
  apply (map_pressure_to_file_nearest (E := bench) log_A
           "Pokit DSO Export 2024-06-17-18-06-00.csv" 1718647560%Z).
  reflexivity.
Defined.

(** ** The median slope *)

Lemma slope_at_cons (t v : Q) (times values : list Q) (i : nat) :
  slope_at (t :: times) (v :: values) (S i) = slope_at times values i.
Proof. reflexivity. Qed.

(** With distinct consecutive times every quotient is finite, and the
    quotients are the slopes of the specification in order. *)
Lemma np_divide_diff (values : list Q) :
  forall times : list Q,
    length times = length values ->
    (forall i, (S i < length times)%nat ->
               ~ nth (S i) times 0 == nth i times 0) ->
    np_divide (np_diff values) (np_diff times)
    = map Fin (map (slope_at times values) (seq 0 (length values - 1))).
Proof.
  induction values as [|v0 vr IH]; intros [|t0 tr] Hlen Hdist;
    try discriminate; [reflexivity|].
  destruct vr as [|v1 vr]; destruct tr as [|t1 tr]; try discriminate;
    [reflexivity|].
  change (np_diff (v0 :: v1 :: vr)) with ((v1 - v0) :: np_diff (v1 :: vr)).
  change (np_diff (t0 :: t1 :: tr)) with ((t1 - t0) :: np_diff (t1 :: tr)).
  cbn [np_divide].
  rewrite (IH (t1 :: tr)).
  - assert (Hnz : ~ t1 - t0 == 0).
    { intro H. apply (Hdist 0%nat); [simpl; lia|]. simpl. lra. }
    rewrite (fdiv_nonzero _ _ Hnz).
    cbn [length Nat.sub]. rewrite Nat.sub_0_r.
    change (seq 0 (S (length vr))) with (0%nat :: seq 1 (length vr)).
    rewrite <- seq_shift. cbn [map]. rewrite !map_map.
    f_equal.
  - simpl in Hlen |- *. lia.
  - intros i Hi. apply (Hdist (S i)). simpl in Hi |- *. lia.
Qed.

Lemma sort_insert_Fin (x : Q) (l : list Q) :
  insert (Fin x) (map Fin l) = map Fin (Qinsert x l).
Proof.
  induction l as [|y r IH]; simpl; [reflexivity|].
  destruct (Qle_bool x y); simpl; [reflexivity|]. rewrite IH. reflexivity.
Qed.

Lemma sort_Fin (l : list Q) : sort (map Fin l) = map Fin (Qsort l).
Proof.
  induction l as [|x r IH]; simpl; [reflexivity|].
  rewrite IH. apply sort_insert_Fin.
Qed.

Lemma Qinsert_perm (x : Q) (l : list Q) : Permutation (Qinsert x l) (x :: l).
Proof.
  induction l as [|y r IH]; simpl; [reflexivity|].
  destruct (Qle_bool x y); [reflexivity|].
  rewrite IH. apply perm_swap.
Qed.

Lemma Qsort_perm (l : list Q) : Permutation (Qsort l) l.
Proof.
  induction l as [|x r IH]; simpl; [reflexivity|].
  rewrite Qinsert_perm. constructor. exact IH.
Qed.

Lemma Qinsert_sorted (x : Q) (l : list Q) :
  StronglySorted Qle l -> StronglySorted Qle (Qinsert x l).
Proof.
  induction 1 as [|y r Hr IH Hall]; simpl.
  - constructor; constructor.
  - destruct (Qle_bool x y) eqn:Hxy.
    + apply Qle_bool_iff in Hxy.
      constructor; [constructor; assumption|].
      constructor; [exact Hxy|].
      eapply Forall_impl; [|exact Hall]. simpl. intros a Ha. lra.
    + assert (Hyx : y <= x).
      { apply Qlt_le_weak, Qnot_le_lt. intro H.
        apply Qle_bool_iff in H. congruence. }
      constructor; [exact IH|].
      rewrite Forall_forall. intros a Ha.
      apply (Permutation_in _ (Qinsert_perm x r)) in Ha.
      destruct Ha as [<- | Ha]; [exact Hyx|].
      rewrite Forall_forall in Hall. apply Hall. exact Ha.
Qed.

Lemma Qsort_sorted (l : list Q) : StronglySorted Qle (Qsort l).
Proof.
  induction l as [|x r IH]; simpl; [constructor|].
  apply Qinsert_sorted. exact IH.
Qed.

Lemma nth_map_Fin (s : list Q) (i : nat) :
  (i < length s)%nat -> nth i (map Fin s) NaN = Fin (nth i s 0).
Proof.
  intro Hi. rewrite (nth_indep _ NaN (Fin 0)) by (rewrite length_map; exact Hi).
  apply (map_nth Fin).
Qed.

Lemma middle_Fin (s : list Q) :
  s <> [] -> middle (map Fin s) = Fin (median_of_sorted s).
Proof.
  intro Hne. unfold middle, median_of_sorted. rewrite length_map.
  assert (Hpos : (0 < length s)%nat) by (destruct s; [congruence | simpl; lia]).
  assert (Hhalf : (length s / 2 < length s)%nat)
    by (apply Nat.div_lt; lia).
  destruct (Nat.even (length s)).
  - rewrite !nth_map_Fin by lia. reflexivity.
  - rewrite nth_map_Fin by lia. reflexivity.
Qed.

Lemma no_nan_Fin (l : list Q) : existsb is_nan (map Fin l) = false.
Proof. induction l; simpl; [reflexivity | assumption]. Qed.

(** The median of finite data is the median of the exact values. *)
Lemma np_median_Fin (l : list Q) :
  l <> [] -> exists m, np_median (map Fin l) = Fin m /\ is_median l m.
Proof.
  intro Hne. exists (median_of_sorted (Qsort l)). split.
  - unfold np_median. rewrite no_nan_Fin.
    destruct l as [|x r]; [congruence|].
    change (map Fin (x :: r)) with (map Fin (x :: r)).
    cbn [map]. change (Fin x :: map Fin r) with (map Fin (x :: r)).
    rewrite sort_Fin. apply middle_Fin.
    intro H. pose proof (Qsort_perm (x :: r)) as Hp. rewrite H in Hp.
    apply Permutation_nil in Hp. discriminate.
  - exists (Qsort l). split; [apply Qsort_perm|].
    split; [apply Qsort_sorted | reflexivity].
Qed.

(** C5: for a time column and a channel of one length, at least 2, with no
    two equal consecutive times, [calculate_median_slope] returns the
    median of the sequence whose [i]-th element is
    [(values[i+1] - values[i]) / (times[i+1] - times[i])]. *)
Theorem calculate_median_slope_is_median (df : DataFrame) (channel : string) :
  let times := getcol df "Time (ms)" in
  let values := getcol df channel in
  length times = length values ->
  (2 <= length values)%nat ->
  (forall i, (S i < length times)%nat ->
             ~ nth (S i) times 0 == nth i times 0) ->
  exists slopes,
    length slopes = (length values - 1)%nat
    /\ (forall i, (i < length slopes)%nat ->
                  nth i slopes 0 = slope_at times values i)
    /\ exists m,
         calculate_median_slope df channel = Fin m /\ is_median slopes m.
Proof.
  intros times values Hlen Htwo Hdist.
  exists (map (slope_at times values) (seq 0 (length values - 1))).
  assert (Hl : length (map (slope_at times values)
                           (seq 0 (length values - 1)))
               = (length values - 1)%nat)
    by (rewrite length_map, length_seq; reflexivity).
  split; [exact Hl | split].
  - intros i Hi. rewrite Hl in Hi.
    rewrite (nth_indep _ 0 (slope_at times values 0%nat))
      by (rewrite Hl; exact Hi).
    rewrite (map_nth (slope_at times values)), seq_nth by exact Hi.
    reflexivity.
  - unfold calculate_median_slope. fold times values.
    rewrite (np_divide_diff values times Hlen Hdist).
    apply np_median_Fin.
    intro H. rewrite H in Hl. simpl in Hl. lia.
Qed.

Lemma calculate_median_slope_is_median_witness :
  calculate_median_slope capture_one "CH1" = Fin 0
  /\ exists slopes,
       length slopes = (length (getcol capture_one "CH1") - 1)%nat
       /\ (forall i, (i < length slopes)%nat ->
             nth i slopes 0
             = slope_at (getcol capture_one "Time (ms)")
                        (getcol capture_one "CH1") i)
       /\ exists m,
            calculate_median_slope capture_one "CH1" = Fin m
            /\ is_median slopes m.
Proof.
  split; [reflexivity|].
  apply (calculate_median_slope_is_median capture_one "CH1").
  - reflexivity.
  - simpl. lia.
  - intros i Hi. simpl in Hi.
    do 5 (destruct i as [|i]; [simpl; intro H; discriminate H|]).
    lia.
Defined.

(* ===================================================================== *)
(** * Further properties *)
(* ===================================================================== *)

(** ** More on the peak extractor *)

(** A candidate that is confirmed is above four times the magnitude of the
    sample that confirms it, whatever the floor. *)
Lemma confirmed_above_4x (av : num) (prev k : Q) :
  (Fin prev >? py_max (Fin (4 * Qabs k)) av) = true -> 4 * Qabs k < prev.
Proof.
  unfold py_max. destruct av as [| |b|]; simpl.
  - rewrite Qltb_lt. tauto.
  - rewrite Qltb_lt. tauto.
  - destruct (Qltb (4 * Qabs k) b) eqn:Hb; simpl; rewrite Qltb_lt.
    + apply Qltb_lt in Hb. lra.
    + tauto.
  - discriminate.
Qed.


(** The first sample confirms nothing: the loop has confirmed fewer peaks
    than it has seen samples. *)
Definition count_inv (seen : list Q) (st : Q * list Q) : Prop :=
  (seen = [] -> fst st = 0)
  /\ (length (snd st) <= pred (length seen))%nat.

Lemma scan_count_inv (av : num) (series : list Q) :
  count_inv series (scan av series).
Proof.
  induction series as [|k l IH] using rev_ind.
  - split; [reflexivity | simpl; lia].
  - rewrite scan_snoc. destruct (scan av l) as [prev acc].
    destruct IH as [Hnil Hlen]. cbn [fst snd] in Hnil, Hlen.
    unfold count_inv, scan_step. rewrite length_app. cbn [length].
    destruct (Fin prev >? py_max (Fin (4 * Qabs k)) av) eqn:Hc; cbn [fst snd].
    + split; [intro H; destruct l; discriminate H|].
      rewrite length_app. cbn [length].
      destruct l as [|x l'].
      * apply confirmed_positive in Hc. rewrite (Hnil eq_refl) in Hc.
        exfalso. exact (Qlt_irrefl 0 Hc).
      * simpl in Hlen |- *. lia.
    + split; [intro H; destruct l; discriminate H|].
      destruct (prev <? Qabs k); cbn [fst snd]; lia.
Qed.

Lemma filter_length_le {A : Type} (f : A -> bool) (l : list A) :
  (length (filter f l) <= length l)%nat.
Proof.
  induction l as [|a l IH]; simpl; [lia|]. destruct (f a); simpl; lia.
Qed.

(** The extractor returns at most [n - 2] peaks for a series of [n]
    samples; in particular none for fewer than three samples. *)
Theorem find_maxes_length_bound (df : DataFrame) (channel : string) :
  (length (find_maxes df channel) <= length (getcol df channel) - 2)%nat
  /\ ((length (getcol df channel) < 3)%nat -> find_maxes df channel = []).
Proof.
  assert (H : (length (find_maxes df channel)
               <= length (getcol df channel) - 2)%nat).
  { rewrite find_maxes_decompose.
    pose proof (filter_length_le (in_band (tl (raw_confirmed df channel)))
                  (tl (raw_confirmed df channel))) as Hf.
    destruct (scan_count_inv (np_mean (getcol df channel))
                (getcol df channel)) as [_ Hlen].
    fold (raw_confirmed df channel) in Hlen.
    assert (Htl : length (tl (raw_confirmed df channel))
                  = pred (length (raw_confirmed df channel)))
      by (destruct (raw_confirmed df channel); reflexivity).
    lia. }
  split; [exact H|].
  intro Hshort. destruct (find_maxes df channel); [reflexivity|].
  simpl in H. lia.
Qed.

(** The bound is reached: three samples can give one peak. *)
Lemma find_maxes_length_bound_witness :
  let df := [("CH1"%string, [-16; 2; 0])] in
  find_maxes df "CH1" = [2]
  /\ (length (find_maxes df "CH1") <= length (getcol df "CH1") - 2)%nat
  /\ find_maxes [("CH1"%string, [5; 1])] "CH1" = [].
Proof.
  split; [reflexivity | split].
  - apply (proj1 (find_maxes_length_bound [("CH1"%string, [-16; 2; 0])] "CH1")).
  - apply (proj2 (find_maxes_length_bound [("CH1"%string, [5; 1])] "CH1")).
    simpl. lia.
Defined.




(** While the candidate is not above any magnitude still to come and the
    magnitudes do not decrease, the loop confirms nothing. *)
Lemma scan_rising (av : num) (l : list Q) :
  StronglySorted (fun x y => Qabs x <= Qabs y) l ->
  forall prev acc,
    Forall (fun x => prev <= Qabs x) l ->
    snd (fold_left (scan_step av) l (prev, acc)) = acc.
Proof.
  induction 1 as [|x r Hr IH Hall]; intros prev acc Hprev; [reflexivity|].
  inversion Hprev as [|? ? Hx Hrest]; subst. cbn [fold_left].
  unfold scan_step at 2.
  destruct (Fin prev >? py_max (Fin (4 * Qabs x)) av) eqn:Hc.
  - apply confirmed_above_4x in Hc. pose proof (Qabs_nonneg x). lra.
  - destruct (prev <? Qabs x).
    + apply IH. exact Hall.
    + apply IH. exact Hrest.
Qed.

(** A series whose magnitudes never decrease, a constant one among them,
    has no peak. *)
Theorem find_maxes_rising_series (df : DataFrame) (channel : string) :
  StronglySorted (fun x y => Qabs x <= Qabs y) (getcol df channel) ->
  raw_confirmed df channel = [] /\ find_maxes df channel = [].
Proof.
  intro Hs.
  assert (Hraw : raw_confirmed df channel = []).
  { unfold raw_confirmed, scan. apply scan_rising; [exact Hs|].
    apply Forall_forall. intros x _. apply Qabs_nonneg. }
  split; [exact Hraw|]. rewrite find_maxes_decompose, Hraw. reflexivity.
Qed.

Lemma find_maxes_rising_series_witness :
  let df := [("CH1"%string, [1; -2; 2; 3; -7])] in
  StronglySorted (fun x y => Qabs x <= Qabs y) (getcol df "CH1")
  /\ raw_confirmed df "CH1" = [] /\ find_maxes df "CH1" = [].
Proof.
  assert (Hs : StronglySorted (fun x y => Qabs x <= Qabs y)
                 (getcol [("CH1"%string, [1; -2; 2; 3; -7])] "CH1")).
  { simpl. repeat (constructor; [|repeat constructor; discriminate]).
    constructor. }
  split; [exact Hs|].
  exact (find_maxes_rising_series _ _ Hs).
Defined.

(** ** How much the trim can drop *)

(** The band test in real arithmetic. *)
Lemma in_band_real (remaining : list Q) (m : Q) :
  In m remaining ->
  in_band remaining m = true
  <-> (mean_R remaining - 2 * spread_R remaining <= Q2R m
       <= mean_R remaining + 2 * spread_R remaining)%R.
Proof.
  intro Hin.
  assert (Hne : remaining <> []) by (intro H; rewrite H in Hin; exact Hin).
  destruct (np_mean_R remaining Hne) as (mu & Hmu & HmuR).
  assert (H0 : Q2R 0 = 0%R) by apply RMicromega.Q2R_0.
  assert (H1 : Q2R 1 = 1%R) by (unfold Q2R; simpl; lra).
  assert (H2 : Q2R 2 = 2%R) by (unfold Q2R; simpl; lra).
  assert (H10 : Q2R 10 = 10%R) by (unfold Q2R; simpl; lra).
  assert (Hm1 : Q2R (-1) = (-1)%R) by (unfold Q2R; simpl; lra).
  unfold in_band, trim_spread, spread_R. rewrite Hmu, andb_true_iff.
  destruct (Nat.ltb_spec 1 (length remaining)) as [Hlen|Hlen].
  - destruct (np_std_R remaining Hlen) as (v & Hv & Hv0 & HvR).
    replace (length remaining <? 2)%nat with false
      by (symmetry; apply Nat.ltb_ge; lia).
    rewrite Hv. cbn [smul ssub sadd sneg Q_ge Q_le rat coef rad].
    rewrite surd_le_Q_spec, Q_le_surd_spec by exact Hv0.
    unfold surd_R; cbn [rat coef rad].
    rewrite !Q2R_plus, !Q2R_mult, HmuR, HvR, H0, H1, H2, Hm1.
    split; intros [Ha Hb]; split; lra.
  - replace (length remaining <? 2)%nat with true
      by (symmetry; apply Nat.ltb_lt; lia).
    unfold of_Q, surd_of_Q.
    cbn [smul ssub sadd sneg Q_ge Q_le rat coef rad].
    rewrite surd_le_Q_spec, Q_le_surd_spec by (cbn [rad]; lra).
    unfold surd_R; cbn [rat coef rad].
    rewrite !Q2R_plus, !Q2R_mult, HmuR, H0, H2, H10, Hm1.
    split; intros [Ha Hb]; split; lra.
Qed.

Lemma Rsum_sq_nonneg (mu : R) (l : list Q) :
  (0 <= Rsum (map (fun x => (Q2R x - mu) * (Q2R x - mu)) l))%R.
Proof.
  induction l as [|x r IH]; simpl; [lra|].
  pose proof (Rle_0_sqr (Q2R x - mu)) as Hsq. unfold Rsqr in Hsq. lra.
Qed.

(** Each value further than [2 * sqrt V] from [mu] contributes more than
    [4 * V] to the sum of squared deviations. *)
Lemma sum_sq_count (mu V : R) (out : Q -> bool) (l : list Q) :
  (0 <= V)%R ->
  (forall x, In x l -> out x = true ->
             (4 * V < (Q2R x - mu) * (Q2R x - mu))%R) ->
  (4 * V * INR (length (filter out l))
   <= Rsum (map (fun x => (Q2R x - mu) * (Q2R x - mu)) l))%R
  /\ (filter out l <> [] ->
      (4 * V * INR (length (filter out l))
       < Rsum (map (fun x => (Q2R x - mu) * (Q2R x - mu)) l))%R).
Proof.
  intros HV. induction l as [|x r IH]; intro Hout.
  - simpl. split; [lra | congruence].
  - assert (Hr : forall y, In y r -> out y = true ->
                   (4 * V < (Q2R y - mu) * (Q2R y - mu))%R)
      by (intros y Hy; apply Hout; right; exact Hy).
    destruct (IH Hr) as [IHle IHlt].
    pose proof (Rle_0_sqr (Q2R x - mu)) as Hsq. unfold Rsqr in Hsq.
    cbn [filter map Rsum fold_right].
    fold (Rsum (map (fun x => (Q2R x - mu) * (Q2R x - mu))%R r)).
    destruct (out x) eqn:Hx.
    + assert (Hbig := Hout x (or_introl eq_refl) Hx).
      cbn [length]. rewrite S_INR.
      split; [|intros _]; lra.
    + split; [lra|]. intro Hne. specialize (IHlt Hne). lra.
Qed.

Lemma filter_partition_length {A : Type} (f : A -> bool) (l : list A) :
  (length (filter f l) + length (filter (fun a => negb (f a)) l)
   = length l)%nat.
Proof.
  induction l as [|a l IH]; simpl; [reflexivity|].
  destruct (f a); simpl; lia.
Qed.

Lemma filter_all {A : Type} (f : A -> bool) (l : list A) :
  length (filter f l) = length l -> filter f l = l.
Proof.
  induction l as [|a l IH]; simpl; [reflexivity|].
  pose proof (filter_length_le f l) as Hle.
  destruct (f a); simpl; intro H; [f_equal; apply IH; lia | lia].
Qed.

(** The peaks the trim drops are either none or fewer than a quarter of
    the peaks it is given. *)
Lemma trim_drop_count (remaining : list Q) :
  let dropped := length (filter (fun m => negb (in_band remaining m))
                                remaining) in
  dropped = 0%nat \/ (4 * dropped + 2 <= length remaining)%nat.
Proof.
  intro dropped.
  destruct (Nat.ltb_spec 1 (length remaining)) as [Hlen|Hlen].
  - (* two peaks or more: the sample standard deviation *)
    destruct dropped as [|k] eqn:Hk; [left; reflexivity | right].
    set (N := length remaining) in *.
    set (V := (sqdev_R remaining / (INR N - 1))%R).
    assert (HN : (1 < INR N)%R) by (apply lt_1_INR; exact Hlen).
    assert (HS : (0 <= sqdev_R remaining)%R) by apply Rsum_sq_nonneg.
    assert (HV : (0 <= V)%R).
    { unfold V. apply Rmult_le_pos; [exact HS|].
      apply Rlt_le, Rinv_0_lt_compat. lra. }
    assert (Hspread : spread_R remaining = sqrt V).
    { unfold spread_R. fold N.
      replace (N <? 2)%nat with false by (symmetry; apply Nat.ltb_ge; lia).
      reflexivity. }
    pose proof (sqrt_pos V) as Hs0.
    pose proof (sqrt_sqrt V HV) as Hss.
    assert (Hout : forall x, In x remaining ->
              negb (in_band remaining x) = true ->
              (4 * V < (Q2R x - mean_R remaining)
                       * (Q2R x - mean_R remaining))%R).
    { intros x Hx Hneg. apply negb_true_iff in Hneg.
      assert (Hnot : ~ (mean_R remaining - 2 * spread_R remaining <= Q2R x
                        <= mean_R remaining + 2 * spread_R remaining)%R).
      { intro Hb. apply (in_band_real remaining x Hx) in Hb. congruence. }
      rewrite Hspread in Hnot.
      apply Rnot_le_lt. intro Hle.
      replace (4 * V)%R with ((2 * sqrt V) * (2 * sqrt V))%R in Hle
        by (rewrite <- Hss at 3; ring).
      apply Hnot.
      destruct (Rle_lt_dec 0 (Q2R x - mean_R remaining)) as [Hd|Hd].
      - assert (Hx1 : (Q2R x - mean_R remaining <= 2 * sqrt V)%R).
        { apply sq_le_iff; [exact Hd | lra | exact Hle]. }
        split; lra.
      - assert (Hx1 : (- (Q2R x - mean_R remaining) <= 2 * sqrt V)%R).
        { apply sq_le_iff; [lra | lra |].
          replace (- (Q2R x - mean_R remaining)
                   * - (Q2R x - mean_R remaining))%R
            with ((Q2R x - mean_R remaining)
                  * (Q2R x - mean_R remaining))%R by ring.
          exact Hle. }
        split; lra. }
    destruct (sum_sq_count (mean_R remaining) V
                (fun m => negb (in_band remaining m)) remaining HV Hout)
      as [_ Hlt].
    fold dropped in Hlt. rewrite Hk in Hlt.
    assert (Hne : filter (fun m => negb (in_band remaining m)) remaining
                  <> []).
    { intro H. unfold dropped in Hk. rewrite H in Hk. discriminate. }
    specialize (Hlt Hne). fold (sqdev_R remaining) in Hlt.
    assert (HSV : sqdev_R remaining = (V * (INR N - 1))%R).
    { unfold V. field. lra. }
    rewrite HSV in Hlt.
    assert (HVpos : (0 < V)%R).
    { destruct HV as [Hp|Hz]; [exact Hp|]. rewrite <- Hz in Hlt. lra. }
    assert (Hcmp : (4 * INR (S k) < INR N - 1)%R).
    { apply Rmult_lt_reg_l with (r := V); [exact HVpos|]. lra. }
    assert (Hnat : (4 * S k + 1 < N)%nat).
    { apply INR_lt. rewrite plus_INR, mult_INR. simpl INR at 1 3.
      replace (INR 4) with 4%R by (simpl; lra). lra. }
    lia.
  - (* at most one peak: the sentinel 10 *)
    left. unfold dropped.
    destruct remaining as [|b [|c r]]; [reflexivity | | simpl in Hlen; lia].
    assert (Hb : in_band [b] b = true).
    { apply in_band_real; [left; reflexivity|].
      unfold spread_R, mean_R. simpl. lra. }
    simpl. rewrite Hb. reflexivity.
Qed.

(** The trim of [find_maxes] drops no peak, or it drops fewer than a
    quarter of the peaks that remain after the warm-up discard. *)
Theorem find_maxes_trim_drops_few (df : DataFrame) (channel : string) :
  let remaining := tl (raw_confirmed df channel) in
  let dropped := (length remaining - length (find_maxes df channel))%nat in
  dropped = 0%nat \/ (4 * dropped + 2 <= length remaining)%nat.
Proof.
  intros remaining dropped.
  pose proof (trim_drop_count remaining) as H. cbv zeta in H.
  pose proof (filter_partition_length (in_band remaining) remaining) as Hp.
  assert (Hd : dropped
               = length (filter (fun m => negb (in_band remaining m))
                                remaining)).
  { unfold dropped. rewrite find_maxes_decompose. fold remaining. lia. }
  rewrite Hd. exact H.
Qed.

(** When at most five peaks remain after the warm-up discard the trim
    drops none: the result is the confirmed peaks without the first. *)
Theorem find_maxes_small_sets_untrimmed (df : DataFrame) (channel : string) :
  (length (raw_confirmed df channel) <= 6)%nat ->
  find_maxes df channel = tl (raw_confirmed df channel).
Proof.
  intro Hlen.
  pose proof (trim_drop_count (tl (raw_confirmed df channel))) as H.
  cbv zeta in H.
  pose proof (filter_partition_length
                (in_band (tl (raw_confirmed df channel)))
                (tl (raw_confirmed df channel))) as Hp.
  assert (Htl : (length (tl (raw_confirmed df channel)) <= 5)%nat).
  { destruct (raw_confirmed df channel); simpl in *; lia. }
  rewrite find_maxes_decompose. apply filter_all. lia.
Qed.

(** Six confirmed peaks keep their last five; with seven, the peak 50 of
    [capture_many] is the one in six that the trim may drop. *)
Lemma find_maxes_small_sets_untrimmed_witness :
  let df := [("CH1"%string, [7; -1; 7; -1; 7; -1; 7; -1; 7; -1; 50; -1])] in
  raw_confirmed df "CH1" = [7; 7; 7; 7; 7; 50]
  /\ find_maxes df "CH1" = [7; 7; 7; 7; 50].
Proof.
  split; [reflexivity|].
  apply (find_maxes_small_sets_untrimmed
           [("CH1"%string, [7; -1; 7; -1; 7; -1; 7; -1; 7; -1; 50; -1])]
           "CH1").
  simpl. lia.
Defined.

(** ** More on the slope estimator *)

Lemma np_median_Fin_sorted (l : list Q) :
  l <> [] -> np_median (map Fin l) = Fin (median_of_sorted (Qsort l)).
Proof.
  intro Hne. unfold np_median. rewrite no_nan_Fin.
  destruct l as [|x r]; [congruence|].
  cbn [map]. change (Fin x :: map Fin r) with (map Fin (x :: r)).
  rewrite sort_Fin. apply middle_Fin.
  intro H. pose proof (Qsort_perm (x :: r)) as Hp. rewrite H in Hp.
  apply Permutation_nil in Hp. discriminate.
Qed.

(** The median of values of an interval lies in the interval. *)
Lemma median_of_sorted_between (lo hi : Q) (s : list Q) :
  s <> [] -> Forall (fun x => lo <= x <= hi) s ->
  lo <= median_of_sorted s <= hi.
Proof.
  intros Hne Hall. rewrite Forall_forall in Hall.
  assert (Hpos : (0 < length s)%nat) by (destruct s; [congruence | simpl; lia]).
  assert (Hhalf : (length s / 2 < length s)%nat) by (apply Nat.div_lt; lia).
  assert (Hnth : forall i, (i < length s)%nat -> lo <= nth i s 0 <= hi).
  { intros i Hi. apply Hall. apply nth_In. exact Hi. }
  unfold median_of_sorted. destruct (Nat.even (length s)).
  - pose proof (Hnth (length s / 2 - 1)%nat ltac:(lia)) as [H1 H2].
    pose proof (Hnth (length s / 2)%nat Hhalf) as [H3 H4].
    split.
    + apply Qle_shift_div_l; lra.
    + apply Qle_shift_div_r; lra.
  - apply Hnth. exact Hhalf.
Qed.

(** The median of finite values of an interval is a finite value of the
    interval. *)
Lemma np_median_between (lo hi : Q) (l : list Q) :
  l <> [] -> Forall (fun x => lo <= x <= hi) l ->
  exists m, np_median (map Fin l) = Fin m /\ lo <= m <= hi.
Proof.
  intros Hne Hall. exists (median_of_sorted (Qsort l)).
  split; [apply np_median_Fin_sorted; exact Hne|].
  apply median_of_sorted_between.
  - intro H. pose proof (Qsort_perm l) as Hp. rewrite H in Hp.
    apply Permutation_nil in Hp. contradiction.
  - rewrite Forall_forall in Hall |- *. intros x Hx. apply Hall.
    apply (Permutation_in _ (Qsort_perm l)). exact Hx.
Qed.

(** The median slope lies between the least and the greatest quotient of
    consecutive samples: bounds that hold for every quotient hold for the
    result. *)
Theorem calculate_median_slope_between (df : DataFrame) (channel : string)
  (lo hi : Q) :
  let times := getcol df "Time (ms)" in
  let values := getcol df channel in
  length times = length values ->
  (2 <= length values)%nat ->
  (forall i, (S i < length times)%nat ->
             ~ nth (S i) times 0 == nth i times 0) ->
  (forall i, (S i < length values)%nat ->
             lo <= slope_at times values i <= hi) ->
  exists m, calculate_median_slope df channel = Fin m /\ lo <= m <= hi.
Proof.
  intros times values Hlen Htwo Hdist Hb.
  unfold calculate_median_slope. fold times values.
  rewrite (np_divide_diff values times Hlen Hdist).
  apply np_median_between.
  - destruct (length values - 1)%nat eqn:Hn; [lia | discriminate].
  - rewrite Forall_forall. intros x Hx. apply in_map_iff in Hx.
    destruct Hx as (i & <- & Hi). apply in_seq in Hi. apply Hb. lia.
Qed.

Lemma calculate_median_slope_between_witness :
  exists m, calculate_median_slope capture_one "CH1" = Fin m
            /\ -101 <= m <= 101.
Proof.
  apply (calculate_median_slope_between capture_one "CH1" (-101) 101).
  - reflexivity.
  - simpl. lia.
  - intros i Hi. simpl in Hi.
    do 5 (destruct i as [|i]; [simpl; intro H; discriminate H|]).
    lia.
  - intros i Hi. simpl in Hi.
    do 5 (destruct i as [|i]; [vm_compute; split; discriminate|]).
    lia.
Defined.

(** On samples of a line [a * t + b] the median slope is [a]. *)
Theorem calculate_median_slope_of_line (df : DataFrame) (channel : string)
  (a b : Q) :
  let times := getcol df "Time (ms)" in
  let values := getcol df channel in
  length times = length values ->
  (2 <= length values)%nat ->
  (forall i, (S i < length times)%nat ->
             ~ nth (S i) times 0 == nth i times 0) ->
  (forall i, (i < length values)%nat ->
             nth i values 0 == a * nth i times 0 + b) ->
  exists m, calculate_median_slope df channel = Fin m /\ m == a.
Proof.
  intros times values Hlen Htwo Hdist Hline.
  assert (Hslope : forall i, (S i < length values)%nat ->
                     slope_at times values i == a).
  { intros i Hi. subst times values. unfold slope_at.
    pose proof (Hline (S i) Hi) as H1.
    pose proof (Hline i ltac:(lia)) as H0.
    rewrite H1, H0.
    assert (Hd : ~ nth (S i) (getcol df "Time (ms)") 0
                   == nth i (getcol df "Time (ms)") 0)
      by (apply Hdist; lia).
    field. intro H. apply Hd. lra. }
  unfold calculate_median_slope. fold times values.
  rewrite (np_divide_diff values times Hlen Hdist).
  destruct (np_median_between a a
              (map (slope_at times values) (seq 0 (length values - 1))))
    as (m & Hm & Hle).
  - destruct (length values - 1)%nat eqn:Hn; [lia | discriminate].
  - rewrite Forall_forall. intros x Hx. apply in_map_iff in Hx.
    destruct Hx as (i & <- & Hi). apply in_seq in Hi.
    rewrite (Hslope i ltac:(lia)). split; apply Qle_refl.
  - exists m. split; [exact Hm|]. apply Qle_antisym; tauto.
Qed.

Lemma calculate_median_slope_of_line_witness :
  let df := [("Time (ms)"%string, [0; 1; 3; 4]);
             ("CH1"%string, [5; 3; -1; -3])] in
  exists m, calculate_median_slope df "CH1" = Fin m /\ m == -2.
Proof.
  apply (calculate_median_slope_of_line
           [("Time (ms)"%string, [0; 1; 3; 4]);
            ("CH1"%string, [5; 3; -1; -3])] "CH1" (-2) 5).
  - reflexivity.
  - simpl. lia.
  - intros i Hi. simpl in Hi.
    do 3 (destruct i as [|i]; [simpl; intro H; discriminate H|]).
    lia.
  - intros i Hi. simpl in Hi.
    do 4 (destruct i as [|i]; [reflexivity|]).
    lia.
Defined.

(** With fewer than two rows there is no quotient, and the result is NaN,
    whatever the time column holds. *)
Theorem calculate_median_slope_short (df : DataFrame) (channel : string) :
  (length (getcol df channel) < 2)%nat ->
  calculate_median_slope df channel = NaN.
Proof.
  intro Hlen. unfold calculate_median_slope.
  destruct (getcol df channel) as [|x [|y r]]; [reflexivity | reflexivity |].
  simpl in Hlen. lia.
Qed.

Lemma calculate_median_slope_short_witness :
  let df := [("Time (ms)"%string, [0]); ("CH1"%string, [5])] in
  (length (getcol df "CH1") < 2)%nat
  /\ calculate_median_slope df "CH1" = NaN.
Proof.
  split; [simpl; lia|].
  apply (calculate_median_slope_short
           [("Time (ms)"%string, [0]); ("CH1"%string, [5])] "CH1").
  simpl. lia.
Defined.

(** ** More on the folder aggregator *)

Lemma for_each_appends {A : Type} (body : list Row -> A -> exc (list Row)) :
  appends body -> appends (fun s xs => for_each xs body s).
Proof.
  intros Hb s xs. revert s.
  induction xs as [|x r IH]; intro s; simpl.
  - rewrite app_nil_r. reflexivity.
  - rewrite (Hb s x). destruct (body [] x) as [a|e]; simpl; [|reflexivity].
    rewrite (IH (s ++ a)), (IH a).
    destruct (for_each r body []) as [b|e]; simpl; [|reflexivity].
    rewrite app_assoc. reflexivity.
Qed.

(** The rows of a loop whose body appends are the rows of its passes, in
    the order of the passes. *)
Lemma for_each_concat {A : Type} (body : list Row -> A -> exc (list Row))
  (xs : list A) (rows : list Row) :
  appends body ->
  for_each xs body [] = Ok rows ->
  exists parts,
    Forall2 (fun x part => body [] x = Ok part) xs parts
    /\ rows = concat parts.
Proof.
  intro Hb. revert rows. induction xs as [|x r IH]; intros rows H; simpl in H.
  - injection H as <-. exists []. split; [constructor | reflexivity].
  - destruct (body [] x) as [a|e] eqn:Hx; simpl in H; [|discriminate].
    pose proof (for_each_appends body Hb a r) as Ha. simpl in Ha.
    rewrite Ha in H.
    destruct (for_each r body []) as [b|e] eqn:Hr; simpl in H; [|discriminate].
    injection H as <-.
    destruct (IH b eq_refl) as (parts & Hall & Hcat).
    exists (a :: parts). split; [constructor; assumption|].
    simpl. rewrite Hcat. reflexivity.
Qed.

Section AggregatorMore.
Context {E : Env}.
Variables (pressure_data : PressureData) (mmul pmul : Q).

Lemma process_column_appends (file_name : string) (df : DataFrame) :
  appends (process_column pressure_data mmul pmul file_name df).
Proof.
  intros s col. unfold process_column.
  destruct (startswith col "CH"); simpl; [|rewrite app_nil_r; reflexivity].
  destruct (map (fun m => m * mmul) (find_maxes df col)); simpl;
    [rewrite app_nil_r; reflexivity|].
  destruct (map_pressure_to_file pressure_data file_name); reflexivity.
Qed.

Lemma process_file_appends (folder_path : string) :
  appends (process_file folder_path pressure_data mmul pmul).
Proof.
  intros s file_name. unfold process_file.
  destruct (endswith file_name ".csv"
            && contains "Pokit DSO Export" file_name); simpl;
    [|rewrite app_nil_r; reflexivity].
  destruct (read_dso_csv (path_join folder_path file_name)) as [df|]; simpl;
    [|rewrite app_nil_r; reflexivity].
  apply (for_each_appends _ (process_column_appends file_name df) s (columns df)).
Qed.

(** The rows of a folder are the rows of its files, file after file in the
    order of the listing, each file giving the rows it gives alone. *)
Theorem process_folder_rows_by_file (folder_path : string)
  (files : list string) (rows : list Row) :
  listdir folder_path = Ok files ->
  process_folder folder_path pressure_data mmul pmul = Ok rows ->
  exists per_file,
    Forall2 (fun file_name part =>
               process_file folder_path pressure_data mmul pmul [] file_name
               = Ok part) files per_file
    /\ rows = concat per_file.
Proof.
  intros Hls H. unfold process_folder in H. rewrite Hls in H. cbn [bind] in H.
  apply for_each_concat; [apply process_file_appends | exact H].
Qed.

(** A loop skips the elements its body does nothing on. *)
Lemma for_each_filter {A S : Type} (body : S -> A -> exc S) (keep : A -> bool)
  (xs : list A) :
  (forall s x, keep x = false -> body s x = Ok s) ->
  forall s, for_each xs body s = for_each (filter keep xs) body s.
Proof.
  intro Hskip. induction xs as [|x r IH]; intro s; simpl; [reflexivity|].
  destruct (keep x) eqn:Hk; simpl.
  - destruct (body s x); simpl; [apply IH | reflexivity].
  - rewrite (Hskip s x Hk). simpl. apply IH.
Qed.

(** Files whose name fails the filter and files [read_dso_csv] cannot read
    count for nothing: the folder gives what its listing without them
    gives. *)
Theorem process_folder_skips_non_captures (folder_path : string)
  (files : list string) :
  listdir folder_path = Ok files ->
  process_folder folder_path pressure_data mmul pmul
  = for_each (filter (is_capture folder_path) files)
      (process_file folder_path pressure_data mmul pmul) [].
Proof.
  intro Hls. unfold process_folder. rewrite Hls. cbn [bind].
  apply for_each_filter. intros s f Hk. unfold is_capture in Hk.
  unfold process_file.
  destruct (endswith f ".csv" && contains "Pokit DSO Export" f);
    [|reflexivity].
  destruct (read_dso_csv (path_join folder_path f)); [discriminate Hk|].
  reflexivity.
Qed.

(** A loop keeps what its body keeps. *)
Lemma for_each_Forall {A : Type} (P : Row -> Prop)
  (body : list Row -> A -> exc (list Row)) (xs : list A) :
  (forall s x s', In x xs -> body s x = Ok s' -> Forall P s -> Forall P s') ->
  forall s s', for_each xs body s = Ok s' -> Forall P s -> Forall P s'.
Proof.
  induction xs as [|x r IH]; intros Hb s s' H Hs; simpl in H.
  - injection H as <-. exact Hs.
  - destruct (body s x) as [s1|e] eqn:Hx; simpl in H; [|discriminate].
    apply (IH (fun s0 x0 s0' Hin => Hb s0 x0 s0' (or_intror Hin)) s1 s' H).
    apply (Hb s x s1 (or_introl eq_refl) Hx Hs).
Qed.

Lemma find_maxes_positive (df : DataFrame) (channel : string) :
  Forall (fun m => 0 < m) (find_maxes df channel).
Proof.
  rewrite Forall_forall. intros m Hin. rewrite find_maxes_decompose in Hin.
  apply filter_In in Hin. destruct Hin as [Hin _]. apply In_tl in Hin.
  destruct (scan_keeps_inv (np_mean (getcol df channel)) (getcol df channel))
    as [_ Hall].
  rewrite Forall_forall in Hall. apply (Hall m Hin).
Qed.

Lemma Qsum_pos (xs : list Q) :
  xs <> [] -> Forall (fun x => 0 < x) xs -> 0 < Qsum xs.
Proof.
  intros Hne Hall. induction Hall as [|x r Hx Hr IH]; [congruence|].
  simpl. destruct r as [|y r'].
  - simpl. lra.
  - assert (0 < Qsum (y :: r')) by (apply IH; discriminate). lra.
Qed.

(** The mean of positive values is positive. *)
Lemma np_mean_pos (xs : list Q) :
  xs <> [] -> Forall (fun x => 0 < x) xs ->
  exists mu, np_mean xs = Fin mu /\ 0 < mu.
Proof.
  intros Hne Hall. exists (Qsum xs / Qlen xs).
  split; [apply np_mean_nonempty; exact Hne|].
  apply Qlt_shift_div_l; [apply Qlen_pos; exact Hne|].
  pose proof (Qsum_pos xs Hne Hall). lra.
Qed.

Lemma process_column_row_ok (folder_path : string) (files : list string)
  (file_name : string) (df : DataFrame) (s s' : list Row) (col : string) :
  In file_name files ->
  endswith file_name ".csv" && contains "Pokit DSO Export" file_name = true ->
  read_dso_csv (path_join folder_path file_name) = Some df ->
  In col (columns df) ->
  process_column pressure_data mmul pmul file_name df s col = Ok s' ->
  Forall (row_ok mmul folder_path files) s -> Forall (row_ok mmul folder_path files) s'.
Proof.
  intros Hf Hname Hread Hcol H Hs. unfold process_column in H.
  destruct (startswith col "CH") eqn:Hch; [|injection H as <-; exact Hs].
  destruct (map (fun m => m * mmul) (find_maxes df col)) as [|p ps] eqn:Hm;
    [injection H as <-; exact Hs|].
  destruct (map_pressure_to_file pressure_data file_name) as [pr|e];
    simpl in H; [|discriminate].
  injection H as <-. apply Forall_app. split; [exact Hs|].
  constructor; [|constructor].
  unfold row_ok; cbn [File_Name Channel Mean_of_Maxes Median_Slope].
  split; [exact Hf|]. split; [exact Hname|].
  exists df. split; [exact Hread|]. split; [exact Hcol|].
  split; [exact Hch|]. split.
  { intro Hnil. rewrite Hnil in Hm. discriminate. }
  split; [reflexivity|].
  intro Hpos. rewrite <- Hm. apply np_mean_pos.
  - rewrite Hm. discriminate.
  - pose proof (find_maxes_positive df col) as Hall.
    rewrite Forall_forall in Hall |- *. intros y Hy.
    apply in_map_iff in Hy. destruct Hy as (m & <- & Hin).
    apply Qmult_lt_0_compat; [apply Hall; exact Hin | exact Hpos].
Qed.

(** Every row of a folder names a file of the listing that passes the
    name filter and was read, and a channel of that file whose name starts
    with CH and that has a peak; its slope is the median slope of that
    channel and, for a positive amplitude multiplier, its mean of peaks is
    a positive number, never NaN. *)
Theorem process_folder_rows_ok (folder_path : string) (files : list string)
  (rows : list Row) :
  listdir folder_path = Ok files ->
  process_folder folder_path pressure_data mmul pmul = Ok rows ->
  Forall (row_ok mmul folder_path files) rows.
Proof.
  intros Hls H. unfold process_folder in H. rewrite Hls in H. cbn [bind] in H.
  apply (for_each_Forall (row_ok mmul folder_path files)
           (process_file folder_path pressure_data mmul pmul) files)
    with (s := []); [|exact H|constructor].
  intros s f s' Hf Hbody Hs. unfold process_file in Hbody.
  destruct (endswith f ".csv" && contains "Pokit DSO Export" f) eqn:Hname;
    [|injection Hbody as <-; exact Hs].
  destruct (read_dso_csv (path_join folder_path f)) as [df|] eqn:Hread;
    [|injection Hbody as <-; exact Hs].
  apply (for_each_Forall (row_ok mmul folder_path files)
           (process_column pressure_data mmul pmul f df) (columns df))
    with (s := s); [|exact Hbody|exact Hs].
  intros s0 col s0' Hcol Hc Hs0.
  apply (process_column_row_ok folder_path files f df s0 s0' col);
    assumption.
Qed.

End AggregatorMore.

Lemma process_folder_rows_by_file_witness :
  exists per_file,
    Forall2 (fun file_name part =>
               process_file (E := bench) "runA" log_A 2 3 [] file_name
               = Ok part)
            ["Pokit DSO Export 2024-06-17-18-06-00.csv";
             "Pokit DSO Export 2024-06-17-18-11-00.csv";
             "readme.txt"]%string per_file
    /\ (exists r1 r2, process_folder (E := bench) "runA" log_A 2 3
                      = Ok [r1; r2]
                      /\ [r1; r2] = concat per_file).
Proof.
  destruct (process_folder (E := bench) "runA" log_A 2 3) as [rows|e] eqn:H;
    [|vm_compute in H; discriminate H].
  destruct (process_folder_rows_by_file (E := bench) log_A 2 3 "runA" _ rows
              eq_refl H) as (per_file & Hall & Hcat).
  exists per_file. split; [exact Hall|].
  vm_compute in H. injection H as <-.
  eexists. eexists. split; [reflexivity | exact Hcat].
Defined.

Lemma process_folder_skips_non_captures_witness :
  filter (is_capture (E := bench) "runA")
    ["Pokit DSO Export 2024-06-17-18-06-00.csv";
     "Pokit DSO Export 2024-06-17-18-11-00.csv"; "readme.txt"]%string
  = ["Pokit DSO Export 2024-06-17-18-06-00.csv";
     "Pokit DSO Export 2024-06-17-18-11-00.csv"]%string
  /\ process_folder (E := bench) "runA" log_A 2 3
     = for_each ["Pokit DSO Export 2024-06-17-18-06-00.csv";
                 "Pokit DSO Export 2024-06-17-18-11-00.csv"]%string
         (process_file (E := bench) "runA" log_A 2 3) [].
Proof.
  split; [reflexivity|].
  exact (process_folder_skips_non_captures (E := bench) log_A 2 3 "runA"
           ["Pokit DSO Export 2024-06-17-18-06-00.csv";
            "Pokit DSO Export 2024-06-17-18-11-00.csv"; "readme.txt"]%string
           eq_refl).
Defined.

Lemma process_folder_rows_ok_witness :
  exists rows,
    process_folder (E := bench) "runA" log_A 2 3 = Ok rows
    /\ length rows = 2%nat
    /\ Forall (row_ok (E := bench) 2 "runA"
                 ["Pokit DSO Export 2024-06-17-18-06-00.csv";
                  "Pokit DSO Export 2024-06-17-18-11-00.csv";
                  "readme.txt"]%string) rows.
Proof.
  destruct (process_folder (E := bench) "runA" log_A 2 3) as [rows|e] eqn:H;
    [|vm_compute in H; discriminate H].
  exists rows. split; [reflexivity|]. split.
  - vm_compute in H. injection H as <-. reflexivity.
  - apply (process_folder_rows_ok (E := bench) log_A 2 3 "runA" _ rows
             eq_refl H).
Defined.

(** ** More on the cross-folder combiner *)

Lemma for_each_app {A S : Type} (body : S -> A -> exc S) (xs ys : list A)
  (s : S) :
  for_each (xs ++ ys) body s = bind (for_each xs body s) (for_each ys body).
Proof.
  revert s. induction xs as [|x r IH]; intro s; simpl; [reflexivity|].
  destruct (body s x); simpl; [apply IH | reflexivity].
Qed.

Lemma zip3_app {A B C : Type} (a1 a2 : list A) (b1 b2 : list B)
  (c1 c2 : list C) :
  length a1 = length b1 -> length b1 = length c1 ->
  zip3 (a1 ++ a2) (b1 ++ b2) (c1 ++ c2) = zip3 a1 b1 c1 ++ zip3 a2 b2 c2.
Proof.
  revert b1 c1. induction a1 as [|a r IH]; intros [|b b1] [|c c1] H1 H2;
    try discriminate; simpl; [reflexivity|].
  f_equal. apply IH; simpl in *; lia.
Qed.

Lemma zip3_firstn {A B C : Type} (xs : list A) (ys : list B) (zs : list C) :
  let n := Nat.min (length xs) (Nat.min (length ys) (length zs)) in
  zip3 xs ys zs = zip3 (firstn n xs) (firstn n ys) (firstn n zs).
Proof.
  revert ys zs. induction xs as [|x xr IH]; intros [|y yr] [|z zr];
    try reflexivity.
  simpl. f_equal. apply IH.
Qed.

Section CombinerMore.
Context {E : Env}.

(** A folder whose pressure log cannot be read is passed over without
    being listed: the run is the run without its triple. *)
Theorem unreadable_log_skips_folder
  (fs1 fs2 ps1 ps2 : list string) (ms1 ms2 : list Multiplier)
  (f p : string) (m : Multiplier) :
  length fs1 = length ps1 -> length ps1 = length ms1 ->
  read_pressure_csv p = None ->
  process_multiple_folders (fs1 ++ f :: fs2) (ps1 ++ p :: ps2)
                           (ms1 ++ m :: ms2)
  = process_multiple_folders (fs1 ++ fs2) (ps1 ++ ps2) (ms1 ++ ms2).
Proof.
  intros H1 H2 Hp. unfold process_multiple_folders.
  rewrite !zip3_app by assumption. rewrite !for_each_app.
  destruct (for_each (zip3 fs1 ps1 ms1) process_one_folder []) as [acc|e];
    [|reflexivity].
  cbn [bind zip3 for_each]. unfold process_one_folder at 1.
  rewrite Hp. reflexivity.
Qed.

(** An exception out of one folder ends the run: it is the result of the
    run, whatever the earlier folders gave and whatever comes after. *)
Theorem folder_exception_aborts_run
  (fs1 fs2 ps1 ps2 : list string) (ms1 ms2 : list Multiplier)
  (f p : string) (m : Multiplier) (pressure_data : PressureData)
  (acc : list (string * list Row)) (e : exn) :
  length fs1 = length ps1 -> length ps1 = length ms1 ->
  for_each (zip3 fs1 ps1 ms1) process_one_folder [] = Ok acc ->
  read_pressure_csv p = Some pressure_data ->
  process_folder f pressure_data (max_multiplier m) (pressure_multiplier m)
  = Raise e ->
  process_multiple_folders (fs1 ++ f :: fs2) (ps1 ++ p :: ps2)
                           (ms1 ++ m :: ms2)
  = Raise e.
Proof.
  intros H1 H2 Hacc Hp Hf. unfold process_multiple_folders.
  rewrite zip3_app by assumption. rewrite for_each_app, Hacc.
  cbn [bind zip3 for_each]. unfold process_one_folder at 1.
  rewrite Hp, Hf. reflexivity.
Qed.

(** Folders beyond the shortest of the three lists are not processed. *)
Theorem unmatched_folders_ignored (folder_paths pressure_file_paths : list string)
  (multipliers : list Multiplier) :
  let n := Nat.min (length folder_paths)
             (Nat.min (length pressure_file_paths) (length multipliers)) in
  process_multiple_folders folder_paths pressure_file_paths multipliers
  = process_multiple_folders (firstn n folder_paths)
      (firstn n pressure_file_paths) (firstn n multipliers).
Proof.
  intro n. unfold process_multiple_folders.
  rewrite (zip3_firstn folder_paths pressure_file_paths multipliers).
  reflexivity.
Qed.

(** When no folder gives a row, because its log cannot be read or because
    it has no row to give, the run raises the error of [pd.concat]. *)
Theorem nothing_to_combine (folder_paths pressure_file_paths : list string)
  (multipliers : list Multiplier) :
  Forall (fun job =>
            read_pressure_csv (snd (fst job)) = None \/ job_yields job [])
         (zip3 folder_paths pressure_file_paths multipliers) ->
  process_multiple_folders folder_paths pressure_file_paths multipliers
  = Raise (ValueError "No objects to concatenate").
Proof.
  intro Hall. unfold process_multiple_folders.
  assert (H : for_each (zip3 folder_paths pressure_file_paths multipliers)
                process_one_folder [] = Ok []).
  { induction Hall as [|[[f p] m] jobs Hj _ IH]; [reflexivity|].
    cbn [for_each]. unfold process_one_folder at 1.
    destruct Hj as [Hnone | (pd & Hpd & Hrows)]; cbn [fst snd] in *.
    - rewrite Hnone. exact IH.
    - rewrite Hpd, Hrows. exact IH. }
  rewrite H. reflexivity.
Qed.

Lemma dict_set_fresh (d : list (string * list Row)) (k : string)
  (v : list Row) :
  ~ In k (map fst d) -> dict_set d k v = d ++ [(k, v)].
Proof.
  induction d as [|[k' v'] r IH]; intro Hk; simpl; [reflexivity|].
  destruct (String.eqb_spec k' k) as [Heq|Hne].
  - exfalso. apply Hk. left. exact Heq.
  - rewrite IH; [reflexivity|]. intro H. apply Hk. right. exact H.
Qed.

Lemma distinct_folders_append (jobs : list (string * string * Multiplier))
  (rs : list (list Row)) :
  Forall2 job_yields jobs rs ->
  NoDup (map job_folder jobs) ->
  forall acc,
    (forall k, In k (map fst acc) -> ~ In k (map job_folder jobs)) ->
    exists entries,
      for_each jobs process_one_folder acc = Ok (acc ++ entries)
      /\ map snd entries = filter nonempty rs.
Proof.
  induction 1 as [|[[f p] m] r jobs rs (pd & Hpd & Hrows) _ IH];
    intros Hnd acc Hacc.
  - exists []. rewrite app_nil_r. split; reflexivity.
  - cbn [map job_folder fst] in Hnd, Hacc. inversion Hnd as [|? ? Hf Hnd']; subst.
    cbn [for_each]. unfold process_one_folder at 1. rewrite Hpd, Hrows.
    cbn [bind].
    destruct r as [|row r'].
    + destruct (IH Hnd' acc) as (entries & Hrun & Hsnd).
      { intros k Hk Hin. apply (Hacc k Hk). right. exact Hin. }
      exists entries. split; [exact Hrun | exact Hsnd].
    + rewrite dict_set_fresh.
      2: { intro Hin. apply (Hacc f Hin). left. reflexivity. }
      cbn [bind].
      destruct (IH Hnd' (acc ++ [(f, row :: r')])) as (entries & Hrun & Hsnd).
      { intros k Hk Hin. rewrite map_app, in_app_iff in Hk.
        destruct Hk as [Hk | [Hk | []]].
        - apply (Hacc k Hk). right. exact Hin.
        - simpl in Hk. subst k. exact (Hf Hin). }
      exists ((f, row :: r') :: entries). split.
      * rewrite Hrun, <- app_assoc. reflexivity.
      * simpl. rewrite Hsnd. reflexivity.
Qed.

(** For pairwise distinct folder paths whose passes all return, the run
    writes the rows of the folders that gave any, folder after folder in
    the order given, or raises when no folder gave any. *)
Theorem distinct_folders_concatenate
  (folder_paths pressure_file_paths : list string)
  (multipliers : list Multiplier) (rs : list (list Row)) :
  Forall2 job_yields (zip3 folder_paths pressure_file_paths multipliers) rs ->
  NoDup (map job_folder (zip3 folder_paths pressure_file_paths multipliers)) ->
  process_multiple_folders folder_paths pressure_file_paths multipliers
  = pd_concat (filter nonempty rs).
Proof.
  intros Hall Hnd. unfold process_multiple_folders.
  destruct (distinct_folders_append _ _ Hall Hnd [])
    as (entries & Hrun & Hsnd).
  { intros k []. }
  rewrite Hrun. cbn [bind app]. rewrite Hsnd. reflexivity.
Qed.

(** A folder path given twice keeps only the rows of its second pass. *)
Theorem repeated_folder_overwrites (f p1 p2 : string) (m1 m2 : Multiplier)
  (r1 r2 : list Row) :
  job_yields (f, p1, m1) r1 -> job_yields (f, p2, m2) r2 ->
  r1 <> [] -> r2 <> [] ->
  process_multiple_folders [f; f] [p1; p2] [m1; m2] = Ok r2.
Proof.
  intros (pd1 & Hp1 & Hr1) (pd2 & Hp2 & Hr2) Hn1 Hn2.
  unfold process_multiple_folders. cbn [zip3 for_each].
  unfold process_one_folder at 1. rewrite Hp1, Hr1. cbn [bind].
  destruct r1 as [|x1 r1']; [congruence|]. cbn [dict_set bind for_each].
  unfold process_one_folder. rewrite Hp2, Hr2. cbn [bind].
  destruct r2 as [|x2 r2']; [congruence|].
  cbn [dict_set]. rewrite String.eqb_refl.
  cbn [bind map snd pd_concat concat]. rewrite app_nil_r. reflexivity.
Qed.

(** Every table kept for a folder has a row. *)
Lemma dict_set_nonempty (d : list (string * list Row)) (k : string)
  (v : list Row) :
  v <> [] -> Forall (fun kv => snd kv <> []) d ->
  Forall (fun kv => snd kv <> []) (dict_set d k v).
Proof.
  intros Hv Hd. induction Hd as [|[k' v'] r Hkv Hr IH]; simpl.
  - constructor; [exact Hv | constructor].
  - destruct (String.eqb k' k); constructor; assumption.
Qed.

Lemma all_results_nonempty (jobs : list (string * string * Multiplier)) :
  forall acc acc',
    Forall (fun kv => snd kv <> []) acc ->
    for_each jobs process_one_folder acc = Ok acc' ->
    Forall (fun kv => snd kv <> []) acc'.
Proof.
  induction jobs as [|[[f p] m] jobs IH]; intros acc acc' Hacc H;
    cbn [for_each] in H.
  - injection H as <-. exact Hacc.
  - unfold process_one_folder at 1 in H.
    destruct (read_pressure_csv p) as [pd|]; [|exact (IH _ _ Hacc H)].
    destruct (process_folder f pd (max_multiplier m) (pressure_multiplier m))
      as [[|row r]|e]; cbn [bind] in H; [exact (IH _ _ Hacc H) | | discriminate].
    apply (IH _ _ (dict_set_nonempty acc f (row :: r) ltac:(discriminate) Hacc) H).
Qed.

(** What the run writes is never an empty table. *)
Theorem written_table_has_rows (folder_paths pressure_file_paths : list string)
  (multipliers : list Multiplier) (rows : list Row) :
  process_multiple_folders folder_paths pressure_file_paths multipliers
  = Ok rows ->
  rows <> [].
Proof.
  unfold process_multiple_folders. intro H.
  destruct (for_each (zip3 folder_paths pressure_file_paths multipliers)
              process_one_folder []) as [acc|e] eqn:Hacc; [|discriminate].
  cbn [bind] in H.
  pose proof (all_results_nonempty _ [] acc (Forall_nil _) Hacc) as Hall.
  destruct acc as [|[k v] acc']; [discriminate|].
  cbn [map snd pd_concat] in H. injection H as <-.
  inversion Hall as [|? ? Hv _]; subst. cbn [snd] in Hv.
  destruct v as [|row v']; [congruence|]. discriminate.
Qed.

End CombinerMore.

Lemma unreadable_log_skips_folder_witness :
  process_multiple_folders (E := bench2)
    ["runA"; "nowhere"; "runC"]%string
    ["logA.csv"; "lost.csv"; "logA.csv"]%string
    [ {| max_multiplier := 2; pressure_multiplier := 3 |};
      {| max_multiplier := 2; pressure_multiplier := 3 |};
      {| max_multiplier := 5; pressure_multiplier := 7 |} ]
  = process_multiple_folders (E := bench2)
      ["runA"; "runC"]%string ["logA.csv"; "logA.csv"]%string
      [ {| max_multiplier := 2; pressure_multiplier := 3 |};
        {| max_multiplier := 5; pressure_multiplier := 7 |} ].
Proof.
  apply (unreadable_log_skips_folder (E := bench2)
           ["runA"%string] ["runC"%string] ["logA.csv"%string]
           ["logA.csv"%string]
           [ {| max_multiplier := 2; pressure_multiplier := 3 |} ]
           [ {| max_multiplier := 5; pressure_multiplier := 7 |} ]
           "nowhere" "lost.csv"
           {| max_multiplier := 2; pressure_multiplier := 3 |});
    reflexivity.
Defined.

Lemma folder_exception_aborts_run_witness :
  process_multiple_folders (E := bench2)
    ["runA"; "nowhere"; "runC"]%string
    ["logA.csv"; "logA.csv"; "logA.csv"]%string
    [ {| max_multiplier := 2; pressure_multiplier := 3 |};
      {| max_multiplier := 2; pressure_multiplier := 3 |};
      {| max_multiplier := 5; pressure_multiplier := 7 |} ]
  = Raise (FileNotFoundError "nowhere").
Proof.
  destruct (for_each (zip3 ["runA"%string] ["logA.csv"%string]
                       [ {| max_multiplier := 2; pressure_multiplier := 3 |} ])
              (process_one_folder (E := bench2)) []) as [acc|e] eqn:Hacc;
    [|vm_compute in Hacc; discriminate Hacc].
  apply (folder_exception_aborts_run (E := bench2)
           ["runA"%string] ["runC"%string] ["logA.csv"%string]
           ["logA.csv"%string]
           [ {| max_multiplier := 2; pressure_multiplier := 3 |} ]
           [ {| max_multiplier := 5; pressure_multiplier := 7 |} ]
           "nowhere" "logA.csv"
           {| max_multiplier := 2; pressure_multiplier := 3 |}
           log_A acc (FileNotFoundError "nowhere"));
    try reflexivity.
  exact Hacc.
Defined.

Lemma nothing_to_combine_witness :
  process_multiple_folders (E := bench2)
    ["runA"; "vacant"]%string ["lost.csv"; "logA.csv"]%string
    [ {| max_multiplier := 2; pressure_multiplier := 3 |};
      {| max_multiplier := 2; pressure_multiplier := 3 |} ]
  = Raise (ValueError "No objects to concatenate").
Proof.
  apply (nothing_to_combine (E := bench2)).
  constructor; [left; reflexivity|].
  constructor; [|constructor].
  right. exists log_A. split; reflexivity.
Defined.

Lemma distinct_folders_concatenate_witness :
  exists ra rc,
    process_folder (E := bench2) "runA" log_A 2 3 = Ok ra
    /\ process_folder (E := bench2) "runC" log_A 5 7 = Ok rc
    /\ length ra = 2%nat /\ length rc = 1%nat
    /\ process_multiple_folders (E := bench2)
         ["runA"; "vacant"; "runC"]%string
         ["logA.csv"; "logA.csv"; "logA.csv"]%string
         [ {| max_multiplier := 2; pressure_multiplier := 3 |};
           {| max_multiplier := 2; pressure_multiplier := 3 |};
           {| max_multiplier := 5; pressure_multiplier := 7 |} ]
       = Ok (ra ++ rc).
Proof.
  destruct (process_folder (E := bench2) "runA" log_A 2 3) as [ra|e] eqn:Ha;
    [|vm_compute in Ha; discriminate Ha].
  destruct (process_folder (E := bench2) "runC" log_A 5 7) as [rc|e] eqn:Hc;
    [|vm_compute in Hc; discriminate Hc].
  exists ra, rc. split; [reflexivity | split; [reflexivity|]].
  assert (Hla : length ra = 2%nat)
    by (vm_compute in Ha; injection Ha as <-; reflexivity).
  assert (Hlc : length rc = 1%nat)
    by (vm_compute in Hc; injection Hc as <-; reflexivity).
  split; [exact Hla | split; [exact Hlc|]].
  rewrite (distinct_folders_concatenate (E := bench2) _ _ _ [ra; []; rc]).
  - destruct ra as [|a ra']; [discriminate Hla|].
    destruct rc as [|c rc']; [discriminate Hlc|].
    simpl. rewrite app_nil_r. reflexivity.
  - constructor; [exists log_A; split; [reflexivity | exact Ha]|].
    constructor; [exists log_A; split; reflexivity|].
    constructor; [exists log_A; split; [reflexivity | exact Hc]|].
    constructor.
  - simpl. repeat constructor; simpl; intuition discriminate.
Defined.

Lemma repeated_folder_overwrites_witness :
  exists r2,
    process_folder (E := bench2) "runA" log_A 5 7 = Ok r2
    /\ process_multiple_folders (E := bench2)
         ["runA"; "runA"]%string ["logA.csv"; "logA.csv"]%string
         [ {| max_multiplier := 2; pressure_multiplier := 3 |};
           {| max_multiplier := 5; pressure_multiplier := 7 |} ]
       = Ok r2.
Proof.
  destruct (process_folder (E := bench2) "runA" log_A 2 3) as [r1|e] eqn:H1;
    [|vm_compute in H1; discriminate H1].
  destruct (process_folder (E := bench2) "runA" log_A 5 7) as [r2|e] eqn:H2;
    [|vm_compute in H2; discriminate H2].
  exists r2. split; [reflexivity|].
  apply (repeated_folder_overwrites (E := bench2) "runA" "logA.csv" "logA.csv"
           {| max_multiplier := 2; pressure_multiplier := 3 |}
           {| max_multiplier := 5; pressure_multiplier := 7 |} r1 r2).
  - exists log_A. split; [reflexivity | exact H1].
  - exists log_A. split; [reflexivity | exact H2].
  - intro Hn. rewrite Hn in H1. vm_compute in H1. discriminate H1.
  - intro Hn. rewrite Hn in H2. vm_compute in H2. discriminate H2.
Defined.

Lemma written_table_has_rows_witness :
  exists rows,
    process_multiple_folders (E := bench2)
      ["runA"]%string ["logA.csv"]%string
      [ {| max_multiplier := 2; pressure_multiplier := 3 |} ] = Ok rows
    /\ rows <> [].
Proof.
  destruct (process_multiple_folders (E := bench2)
              ["runA"]%string ["logA.csv"]%string
              [ {| max_multiplier := 2; pressure_multiplier := 3 |} ])
    as [rows|e] eqn:H; [|vm_compute in H; discriminate H].
  exists rows. split; [reflexivity|].
  exact (written_table_has_rows (E := bench2) _ _ _ rows H).
Defined.

(** ** More on the timestamp aligner *)

Section AlignerMore.
Context {E : Env} {AS : ArgsortSpec E}.

(** Once the label is parsed the aligner returns. *)
Lemma aligner_returns (pressure_data : PressureData) (file_name : string)
  (file_time : Z) :
  strptime (capture_label file_name) = Some file_time ->
  exists r, map_pressure_to_file pressure_data file_name = Ok r.
Proof.
  intro Hparse. unfold map_pressure_to_file.
  fold (capture_label file_name). rewrite Hparse. cbn [bind].
  set (ks := abs_diff pressure_data file_time).
  assert (Hlen : length ks = length pressure_data)
    by (unfold ks, abs_diff; apply length_map).
  destruct (argsort ks) as [|i rest] eqn:Hs.
  - exists None. reflexivity.
  - destruct (argsort_head_minimal ks i rest Hs) as [Hi _].
    rewrite Hlen in Hi.
    destruct (nth_error pressure_data i) as [[ts p]|] eqn:Hrow.
    2: { apply nth_error_None in Hrow. lia. }
    exists (Some p). simpl. rewrite Hrow. reflexivity.
Qed.

(** The aligner raises exactly when [strptime] rejects the label of the
    file name, and then it raises that [ValueError], whatever the pressure
    series holds, an empty one included; it raises nothing else. *)
Theorem map_pressure_to_file_raises_iff (pressure_data : PressureData)
  (file_name : string) (e : exn) :
  map_pressure_to_file pressure_data file_name = Raise e
  <-> strptime (capture_label file_name) = None
      /\ e = ValueError (capture_label file_name).
Proof.
  split.
  - intro H. destruct (strptime (capture_label file_name)) as [t|] eqn:Hp.
    + destruct (aligner_returns pressure_data file_name t Hp) as [r Hr].
      congruence.
    + unfold map_pressure_to_file in H. fold (capture_label file_name) in H.
      rewrite Hp in H. cbn [bind] in H. injection H as <-.
      split; reflexivity.
  - intros [Hp ->]. unfold map_pressure_to_file.
    fold (capture_label file_name). rewrite Hp. reflexivity.
Qed.

End AlignerMore.

Lemma map_pressure_to_file_raises_iff_witness :
  map_pressure_to_file (E := bench) [] "Pokit DSO Export copy.csv"
  = Raise (ValueError "copy")
  /\ map_pressure_to_file (E := bench) []
       "Pokit DSO Export 2024-06-17-18-06-00.csv" = Ok None.
Proof.
  split; [|reflexivity].
  apply (map_pressure_to_file_raises_iff (E := bench) []
           "Pokit DSO Export copy.csv" (ValueError "copy")).
  split; reflexivity.
Defined.

(** ** The label of a capture name *)

Lemma replace_from_skip (old new a s : string) :
  replace_from old new (a ++ s) (String.length a) = replace_from old new s 0.
Proof.
  induction a as [|c r IH]; simpl; [|exact IH].
  destruct s; reflexivity.
Qed.

Lemma prefix_nil (s : string) : String.prefix "" s = true.
Proof. destruct s; reflexivity. Qed.

Lemma prefix_app (p s : string) : String.prefix p (p ++ s) = true.
Proof.
  induction p as [|c r IH]; simpl; [apply prefix_nil|].
  destruct (ascii_dec c c); [exact IH | congruence].
Qed.

(** An occurrence at the front is replaced and the rest is searched. *)
Lemma replace_front (c : ascii) (r new s : string) :
  replace (String c r ++ s) (String c r) new
  = (new ++ replace s (String c r) new)%string.
Proof.
  unfold replace.
  change (String c r ++ s)%string with (String c (r ++ s)).
  cbn [replace_from].
  change (String c (r ++ s)) with (String c r ++ s)%string.
  rewrite prefix_app.
  cbn [String.length Nat.sub]. rewrite Nat.sub_0_r.
  rewrite replace_from_skip. reflexivity.
Qed.

(** A string without the first character of [old] holds no occurrence. *)
Lemma replace_absent (c : ascii) (r new s : string) :
  occurs c s = false -> replace s (String c r) new = s.
Proof.
  unfold replace. induction s as [|a t IH]; intro H; [reflexivity|].
  simpl in H. apply orb_false_iff in H. destruct H as [Ha Ht].
  cbn [replace_from String.prefix].
  destruct (ascii_dec c a) as [Heq|Hne].
  - subst a. rewrite Ascii.eqb_refl in Ha. discriminate.
  - rewrite (IH Ht). reflexivity.
Qed.

Lemma occurs_app (c : ascii) (s t : string) :
  occurs c (s ++ t) = occurs c s || occurs c t.
Proof.
  induction s as [|a r IH]; simpl; [reflexivity|].
  rewrite IH, orb_assoc. reflexivity.
Qed.

Lemma replace_suffix_csv (s : string) :
  occurs "." s = false -> replace (s ++ ".csv") ".csv" "" = s.
Proof.
  unfold replace. induction s as [|a t IH]; intro H; [reflexivity|].
  simpl in H. apply orb_false_iff in H. destruct H as [Ha Ht].
  change (String a t ++ ".csv")%string with (String a (t ++ ".csv")).
  cbn [replace_from String.prefix].
  destruct (ascii_dec "." a) as [Heq|Hne].
  - subst a. discriminate.
  - rewrite (IH Ht). reflexivity.
Qed.

Lemma replace_dashes (s : string) : replace s "-" " " = dash_to_blank s.
Proof.
  unfold replace. induction s as [|a t IH]; [reflexivity|].
  cbn [replace_from String.prefix dash_to_blank].
  destruct (ascii_dec "-" a) as [Heq|Hne].
  - subst a. rewrite prefix_nil. simpl. rewrite IH. reflexivity.
  - destruct (Ascii.eqb_spec a "-") as [Heq|_]; [congruence|].
    rewrite IH. reflexivity.
Qed.

Lemma substring_all (s : string) : substring 0 (String.length s) s = s.
Proof. induction s as [|a t IH]; simpl; [reflexivity | rewrite IH; reflexivity]. Qed.

Lemma substring_app_r (a b : string) :
  substring (String.length a) (String.length b) (a ++ b) = b.
Proof.
  induction a as [|c r IH]; simpl; [apply substring_all | exact IH].
Qed.

Lemma length_app_string (a b : string) :
  String.length (a ++ b) = (String.length a + String.length b)%nat.
Proof. induction a as [|c r IH]; simpl; [reflexivity | rewrite IH; reflexivity]. Qed.

Lemma contains_prefix (p s : string) :
  String.prefix p s = true -> contains p s = true.
Proof. intro H. destruct s; cbn [contains]; rewrite H; reflexivity. Qed.

Lemma append_assoc_string (a b c : string) :
  (a ++ (b ++ c))%string = ((a ++ b) ++ c)%string.
Proof. induction a as [|x r IH]; simpl; [reflexivity | rewrite IH; reflexivity]. Qed.

Lemma endswith_app (a b : string) : endswith (a ++ b) b = true.
Proof.
  unfold endswith. rewrite length_app_string.
  replace (String.length a + String.length b - String.length b)%nat
    with (String.length a) by lia.
  rewrite substring_app_r, String.eqb_refl, andb_true_r.
  apply Nat.leb_le. lia.
Qed.

(** A name the exporter writes, [Pokit DSO Export <stamp>.csv] with a stamp
    that holds neither [P] nor a dot, passes the name filter of
    [process_folder], and the label handed to [strptime] is the stamp with
    its dashes turned into blanks. *)
Theorem capture_label_of_export_name (stamp : string) :
  occurs "P" stamp = false -> occurs "." stamp = false ->
  let file_name := ("Pokit DSO Export " ++ stamp ++ ".csv")%string in
  endswith file_name ".csv" && contains "Pokit DSO Export" file_name = true
  /\ capture_label file_name = dash_to_blank stamp.
Proof.
  intros HP Hdot file_name. split.
  - apply andb_true_iff. split.
    + unfold file_name.
      rewrite (append_assoc_string "Pokit DSO Export " stamp ".csv").
      apply endswith_app.
    + unfold file_name.
      change ("Pokit DSO Export " ++ stamp ++ ".csv")%string
        with ("Pokit DSO Export" ++ (" " ++ stamp ++ ".csv"))%string.
      apply contains_prefix, prefix_app.
  - unfold capture_label, file_name.
    rewrite (replace_front "P" "okit DSO Export " "" (stamp ++ ".csv")).
    rewrite (replace_absent "P" "okit DSO Export " "" (stamp ++ ".csv"))
      by (rewrite occurs_app, HP; reflexivity).
    cbn [append]. rewrite (replace_suffix_csv stamp Hdot).
    apply replace_dashes.
Qed.

Lemma capture_label_of_export_name_witness :
  endswith "Pokit DSO Export 2024-06-17-18-06-00.csv" ".csv"
  && contains "Pokit DSO Export" "Pokit DSO Export 2024-06-17-18-06-00.csv"
  = true
  /\ capture_label "Pokit DSO Export 2024-06-17-18-06-00.csv"
     = "2024 06 17 18 06 00"%string.
Proof.
  apply (capture_label_of_export_name "2024-06-17-18-06-00"); reflexivity.
Defined.

(** ** The header and the data rows of a capture file *)

(** Either no row of the file has a first field that starts with [Time],
    and nothing is read; or the rows before the first such row are
    dropped, that row is the header, and the data are the non-empty rows
    after it, in their order. *)
Theorem dso_header_and_data_spec (rows : list (list string)) :
  (Forall (fun row => is_header row = false) rows
   /\ dso_header_and_data rows = None)
  \/ (exists pre headers post,
        rows = pre ++ headers :: post
        /\ Forall (fun row => is_header row = false) pre
        /\ is_header headers = true
        /\ dso_header_and_data rows = Some (headers, filter is_row post)).
Proof.
  unfold dso_header_and_data.
  induction rows as [|row rest IH]; [left; split; [constructor | reflexivity]|].
  cbn [skip_to_header]. destruct (is_header row) eqn:Hrow.
  - right. exists [], row, rest.
    split; [reflexivity|]. split; [constructor|]. split; [exact Hrow|].
    reflexivity.
  - destruct IH as [[Hall Hnone] | (pre & h & post & Heq & Hpre & Hh & Hsome)].
    + left. split; [constructor; assumption | exact Hnone].
    + right. exists (row :: pre), h, post.
      split; [rewrite Heq; reflexivity|].
      split; [constructor; assumption|]. split; [exact Hh | exact Hsome].
Qed.
